(** * Cycles standalone driver (intern/cycles/app/cycles_standalone.cpp)
      and the OSL brightness/contrast node (node_brightness)

    The driver is embedded as a small monad over the global [options]
    struct: a computation reads and writes the driver state, emits the calls
    it makes on its collaborators (session, scene loader, stdio, ArgParse) as
    a chronological list of events, and either returns, leaves the process
    through [exit], or dereferences a null pointer.  The shader is embedded
    over IEEE-754 binary32 values. *)

From Stdlib Require Import ZArith List String Ascii Bool Lia.
From Stdlib Require Import DecimalString.
From Stdlib Require Import Floats.SpecFloat.
Import ListNotations.

Local Open Scope string_scope.
Local Open Scope list_scope.
Local Open Scope Z_scope.

(** ** Data of the collaborators, as far as the driver touches it *)

(** Modelled from the spec: device.h is not among the sources.  The type tag
    of a device is an enumerated set with a sentinel "none" value, a CPU
    value, GPU variants and a multi-device value. *)
Inductive DeviceType :=
| DEVICE_NONE
| DEVICE_CPU
| DEVICE_OPENCL
| DEVICE_CUDA
| DEVICE_NETWORK
| DEVICE_MULTI.

Definition DeviceType_eqb (a b : DeviceType) : bool :=
  match a, b with
  | DEVICE_NONE, DEVICE_NONE | DEVICE_CPU, DEVICE_CPU
  | DEVICE_OPENCL, DEVICE_OPENCL | DEVICE_CUDA, DEVICE_CUDA
  | DEVICE_NETWORK, DEVICE_NETWORK | DEVICE_MULTI, DEVICE_MULTI => true
  | _, _ => false
  end.

(** Modelled from the spec: DeviceInfo carries a type tag, a human-readable
    description and a display-capability flag. *)
Module DeviceInfo.
Record t := mk {
  type : DeviceType;
  description : string;
  display_device : bool
}.
End DeviceInfo.

(** Of the parameter, buffer, camera and scene structs (declared in headers
    that are not among the sources) the model keeps the members the driver
    reads or writes. *)
Module SceneParams.
Inductive ShadingSystem := OSL | SVM.
Record t := mk { shadingsystem : ShadingSystem }.
End SceneParams.

Module SessionParams.
Record t := mk {
  device : DeviceInfo.t;
  background : bool;
  progressive : bool;
  samples : Z;
  output_path : string;
  threads : Z
}.
End SessionParams.

Module BufferParams.
Record t := mk {
  width : Z;
  height : Z;
  full_width : Z;
  full_height : Z
}.
End BufferParams.

Module Camera.
Record t := mk { width : Z; height : Z }.
End Camera.

Module Scene.
Record t := mk {
  params : SceneParams.t;
  device : DeviceInfo.t;
  camera : Camera.t
}.
End Scene.

(** The two functions the driver binds as update callback through
    [function_bind]; both are declared with an empty parameter list, so a
    callback is invoked without arguments. *)
Inductive Callback := cb_session_print_status | cb_view_redraw.

(** A C double; the driver only carries such values around. *)
Definition double := spec_float.

(** Modelled from the spec: util_progress.h is not among the sources.  The
    progress state of section 3 (sample index, tile timing, status and
    substatus, cancellation flag and reason) with the single callback slot
    and the operations of section 4.3 that the driver calls. *)
Module Progress.
Record t := mk {
  sample : Z;
  tile : Z;
  total_time : double;
  sample_time : double;
  status : string;
  substatus : string;
  cancel : bool;
  cancel_message : string;
  update_cb : option Callback
}.

(** The snapshot reads of section 4.3. *)
Definition get_sample (p : t) : Z := sample p.
Definition get_tile (p : t) : Z * double * double :=
  (tile p, total_time p, sample_time p).
Definition get_status (p : t) : string * string := (status p, substatus p).

Definition set_update_callback (cb : Callback) (p : t) : t :=
  mk (sample p) (tile p) (total_time p) (sample_time p) (status p)
     (substatus p) (cancel p) (cancel_message p) (Some cb).

Definition set_cancel (msg : string) (p : t) : t :=
  mk (sample p) (tile p) (total_time p) (sample_time p) (status p)
     (substatus p) true msg (update_cb p).

Definition reset (p : t) : t :=
  mk 0 0 (S754_zero false) (S754_zero false) "" "" false "" (update_cb p).

Definition fresh : t :=
  mk 0 0 (S754_zero false) (S754_zero false) "" "" false "" None.
End Progress.

(** Modelled from the spec: session.h is not among the sources.  Section 4.4
    gives the states and the transitions the driver triggers: [reset] is
    valid from any state, clears the progress state, takes the new buffer
    shape and target sample count and leads to [Configured]; [start] leads
    from [Configured] to [Running]; [wait] returns once a running session is
    [Completed] or [Cancelled]. *)
Module Session.
Inductive State :=
| Uninitialized | Configured | Running | Paused | Cancelled | Completed.

Record t := mk {
  params : SessionParams.t;
  scene : option Scene.t;
  progress : Progress.t;
  buffer_params : option BufferParams.t;
  samples : Z;
  state : State
}.

Definition new (p : SessionParams.t) : t :=
  mk p None Progress.fresh None 0 Uninitialized.

Definition reset (bp : BufferParams.t) (n : Z) (s : t) : t :=
  mk (params s) (scene s) (Progress.reset (progress s)) (Some bp) n
     Configured.

Definition set_scene (sc : option Scene.t) (s : t) : t :=
  mk (params s) sc (progress s) (buffer_params s) (samples s) (state s).

Definition with_progress (p : Progress.t) (s : t) : t :=
  mk (params s) (scene s) p (buffer_params s) (samples s) (state s).

Definition start (s : t) : t :=
  mk (params s) (scene s) (progress s) (buffer_params s) (samples s)
     (match state s with Configured => Running | st => st end).

Definition wait (s : t) : t :=
  mk (params s) (scene s) (progress s) (buffer_params s) (samples s)
     (match state s with
      | Running =>
          if Progress.cancel (progress s) then Cancelled else Completed
      | st => st
      end).

Definition running (s : t) : bool :=
  match state s with Running => true | _ => false end.
End Session.

(** ** The driver's global state *)

Module Options.
Record t := mk {
  session : option Session.t;
  scene : option Scene.t;
  filepath : string;
  width : Z;
  height : Z;
  scene_params : SceneParams.t;
  session_params : SessionParams.t;
  quiet : bool;
  show_help : bool
}.
End Options.

(** [options] together with the function-local static of [session_print]. *)
Record Globals := mkGlobals {
  options : Options.t;
  maxlen : Z
}.

(** Calls on collaborators, in the order the driver makes them. *)
Inductive Event :=
| EPathInit
| EStdout (text : string)
| EStderr (text : string)
| EFlush
| EUsage (device_help : string)
| ESceneNew (p : SceneParams.t) (d : DeviceInfo.t)
| EXmlReadFile (path : string)
| ESceneDelete (sc : Scene.t)
| ESessionNew (p : SessionParams.t)
| ESessionReset (bp : BufferParams.t) (samples : Z)
| ESessionSetScene (sc : option Scene.t)
| EGetSample
| EGetTile
| EGetStatus
| ESetUpdateCallback (cb : Callback)
| ESetCancel (msg : string)
| ESessionStart
| ESessionWait
| ESessionDraw (bp : BufferParams.t)
| ESessionDelete (s : Session.t)
| EViewDisplayInfo (status : string) (sample : Z)
| EViewDisplayHelp
| EViewRedraw
| EViewMainLoop (title : string) (width height : Z).

Definition EXIT_SUCCESS : Z := 0.
Definition EXIT_FAILURE : Z := 1.

(** ** The driver monad *)

Inductive Result (A : Type) :=
| Return (a : A) (g : Globals)
| Exit (code : Z)
| NullDeref.
Arguments Return {A} a g.
Arguments Exit {A} code.
Arguments NullDeref {A}.

Definition Driver (A : Type) : Type := Globals -> list Event * Result A.

Definition ret {A} (a : A) : Driver A := fun g => ([], Return a g).

(** The events of a continuation follow those already emitted. *)
Definition prepend {A} (tr : list Event) (r : list Event * Result A)
  : list Event * Result A :=
  (tr ++ fst r, snd r).

Definition bind {A B} (m : Driver A) (k : A -> Driver B) : Driver B :=
  fun g =>
    match m g with
    | (tr, Return a g') => prepend tr (k a g')
    | (tr, Exit code) => (tr, Exit code)
    | (tr, NullDeref) => (tr, NullDeref)
    end.

Notation "x <- m ;; k" := (bind m (fun x => k))
  (at level 61, m at next level, right associativity).
Notation "m ;; k" := (bind m (fun _ => k))
  (at level 61, right associativity).

Definition emit (e : Event) : Driver unit := fun g => ([e], Return tt g).
Definition emits (es : list Event) : Driver unit := fun g => (es, Return tt g).
Definition exit {A} (code : Z) : Driver A := fun _ => ([], Exit code).
Definition null_deref {A} : Driver A := fun _ => ([], NullDeref).
Definition get_options : Driver Options.t :=
  fun g => ([], Return (options g) g).
Definition set_options (o : Options.t) : Driver unit :=
  fun g => ([], Return tt (mkGlobals o (maxlen g))).
Definition get_maxlen : Driver Z := fun g => ([], Return (maxlen g) g).
Definition set_maxlen (n : Z) : Driver unit :=
  fun g => ([], Return tt (mkGlobals (options g) n)).

Definition events {A} (r : list Event * Result A) : list Event := fst r.
Definition result {A} (r : list Event * Result A) : Result A := snd r.

(** Field updates of [options]. *)
Definition set_session (s : option Session.t) (o : Options.t) : Options.t :=
  Options.mk s (Options.scene o) (Options.filepath o) (Options.width o)
    (Options.height o) (Options.scene_params o) (Options.session_params o)
    (Options.quiet o) (Options.show_help o).
Definition set_scene (sc : option Scene.t) (o : Options.t) : Options.t :=
  Options.mk (Options.session o) sc (Options.filepath o) (Options.width o)
    (Options.height o) (Options.scene_params o) (Options.session_params o)
    (Options.quiet o) (Options.show_help o).
Definition set_filepath (f : string) (o : Options.t) : Options.t :=
  Options.mk (Options.session o) (Options.scene o) f (Options.width o)
    (Options.height o) (Options.scene_params o) (Options.session_params o)
    (Options.quiet o) (Options.show_help o).
Definition set_width (w : Z) (o : Options.t) : Options.t :=
  Options.mk (Options.session o) (Options.scene o) (Options.filepath o) w
    (Options.height o) (Options.scene_params o) (Options.session_params o)
    (Options.quiet o) (Options.show_help o).
Definition set_height (h : Z) (o : Options.t) : Options.t :=
  Options.mk (Options.session o) (Options.scene o) (Options.filepath o)
    (Options.width o) h (Options.scene_params o) (Options.session_params o)
    (Options.quiet o) (Options.show_help o).
Definition set_scene_params (p : SceneParams.t) (o : Options.t) : Options.t :=
  Options.mk (Options.session o) (Options.scene o) (Options.filepath o)
    (Options.width o) (Options.height o) p (Options.session_params o)
    (Options.quiet o) (Options.show_help o).
Definition set_session_params (p : SessionParams.t) (o : Options.t)
  : Options.t :=
  Options.mk (Options.session o) (Options.scene o) (Options.filepath o)
    (Options.width o) (Options.height o) (Options.scene_params o) p
    (Options.quiet o) (Options.show_help o).
Definition set_quiet (q : bool) (o : Options.t) : Options.t :=
  Options.mk (Options.session o) (Options.scene o) (Options.filepath o)
    (Options.width o) (Options.height o) (Options.scene_params o)
    (Options.session_params o) q (Options.show_help o).
Definition set_show_help (h : bool) (o : Options.t) : Options.t :=
  Options.mk (Options.session o) (Options.scene o) (Options.filepath o)
    (Options.width o) (Options.height o) (Options.scene_params o)
    (Options.session_params o) (Options.quiet o) h.

Definition modify (f : Options.t -> Options.t) : Driver unit :=
  o <- get_options ;; set_options (f o).

(** [options.session-> ...]: the session object behind the pointer. *)
Definition deref_session : Driver Session.t :=
  o <- get_options ;;
  match Options.session o with
  | Some s => ret s
  | None => null_deref
  end.

(** ** Strings and stdio *)

Definition CR : string := String "013"%char EmptyString.
Definition LF : string := String "010"%char EmptyString.

(** [std::string::c_str()] handed to a [%s] conversion or to a C API: the
    text up to the first NUL. *)
Fixpoint c_str (s : string) : string :=
  match s with
  | EmptyString => EmptyString
  | String c rest =>
      if Ascii.eqb c "000"%char then EmptyString else String c (c_str rest)
  end.

(** The [%d] conversion. *)
Definition dec (n : Z) : string := NilZero.string_of_int (Z.to_int n).

(** A counted loop whose body does not depend on the counter. *)
Fixpoint times (n : nat) (body : Driver unit) : Driver unit :=
  match n with
  | O => ret tt
  | S n' => body ;; times n' body
  end.

(** ** Collaborators that are not under the driver's control *)

(** Preprocessor configuration of the build. *)
Class Build := {
  WITH_OSL : bool;
  WITH_CYCLES_STANDALONE_GUI : bool
}.

(** The static interface of [Device] (section 4.1). *)
Class Device := {
  available_types : list DeviceType;
  available_devices : list DeviceInfo.t;
  type_from_string : string -> DeviceType;
  string_from_type : DeviceType -> string
}.

(** The scene constructor, the XML loader and [path_filename]. *)
Class SceneLoader := {
  Scene_new : SceneParams.t -> DeviceInfo.t -> Scene.t;
  xml_read_file : Scene.t -> string -> Scene.t;
  path_filename : string -> string
}.

(** What [ArgParse] (OpenImageIO) does with [argv] for the option table of
    [options_parse]: the value [parse] returns, the text of [geterror], the
    argument vectors with which it invokes the callback of the sublist rule,
    and per option whether it occurred (flags) or the value it stores
    through the bound pointer ([None]: the option did not occur, the variable
    keeps its value). *)
Module CommandLine.
Record t := mk {
  parse : Z;
  geterror : string;
  files : list (list string);
  device : option string;
  shadingsys : option string;
  background : bool;
  quiet : bool;
  samples : option Z;
  output : option string;
  threads : option Z;
  width : option Z;
  height : option Z;
  list_devices : bool;
  help : bool
}.
End CommandLine.

Definition store {A} (v : option A) (old : A) : A :=
  match v with Some x => x | None => old end.

(** The functions of the driver that run once [options_parse] has
    returned: the five [main] hands to [view_main_loop], in the order of its
    parameters [initf], [exitf], [resize], [display] and [keyboard], and the
    call [options.session->wait()] that [main] makes itself. *)
Inductive Call :=
| call_initf
| call_exitf
| call_resize (width height : Z)
| call_display
| call_keyboard (key : ascii)
| call_wait.

(** [view_main_loop] (util_view.cpp) is not among the sources.  All it has of
    the driver are the functions handed to it; which of them it calls, in
    which order and with which arguments, is up to the window system and the
    user: [view_calls title width height] is that sequence of calls. *)
Class View := {
  view_calls : string -> Z -> Z -> list Call
}.

Section Driver.
Context {build : Build} {dev : Device} {loader : SceneLoader} {view : View}.

(** *** session_print, session_print_status *)

Definition session_print (str : string) : Driver unit :=
  emit (EStdout (CR ++ c_str str)%string) ;;
  m <- get_maxlen ;;
  let len := Z.of_nat (String.length str) in
  set_maxlen (Z.max len m) ;;
  m <- get_maxlen ;;
  times (Z.to_nat (m - len)) (emit (EStdout " ")) ;;
  emit EFlush.

Definition status_line (sample : Z) (st : string * string) : string :=
  let (status, substatus) := st in
  let status :=
    if String.eqb substatus "" then status
    else (status ++ ": " ++ substatus)%string in
  ("Sample " ++ dec sample ++ "   " ++ c_str status)%string.

Definition session_print_status : Driver unit :=
  s <- deref_session ;;
  emit EGetSample ;;
  let sample := Progress.get_sample (Session.progress s) in
  s <- deref_session ;;
  emit EGetTile ;;
  let '(tile, total_time, sample_time) :=
    Progress.get_tile (Session.progress s) in
  s <- deref_session ;;
  emit EGetStatus ;;
  let st := Progress.get_status (Session.progress s) in
  session_print (status_line sample st).

(** Invocation of a registered callback: no value is handed over. *)
Definition run_callback (cb : Callback) : Driver unit :=
  match cb with
  | cb_session_print_status => session_print_status
  | cb_view_redraw => emit EViewRedraw
  end.

(** *** session_buffer_params, session_init, scene_init, session_exit *)

Definition session_buffer_params : Driver BufferParams.t :=
  o <- get_options ;;
  ret (BufferParams.mk (Options.width o) (Options.height o)
                       (Options.width o) (Options.height o)).

(** A member call through [options.session]. *)
Definition session_call (e : Event) (f : Session.t -> Session.t)
  : Driver unit :=
  s <- deref_session ;;
  emit e ;;
  modify (set_session (Some (f s))).

(** [options.session->reset(session_buffer_params(),
    options.session_params.samples)], as written in [session_init], [resize]
    and [keyboard]. *)
Definition session_reset : Driver unit :=
  bp <- session_buffer_params ;;
  o <- get_options ;;
  let n := SessionParams.samples (Options.session_params o) in
  session_call (ESessionReset bp n) (Session.reset bp n).

Definition set_update_callback (cb : Callback) : Driver unit :=
  session_call (ESetUpdateCallback cb)
    (fun s => Session.with_progress
                (Progress.set_update_callback cb (Session.progress s)) s).

Definition session_init : Driver unit :=
  o <- get_options ;;
  emit (ESessionNew (Options.session_params o)) ;;
  modify (set_session (Some (Session.new (Options.session_params o)))) ;;
  session_reset ;;
  o <- get_options ;;
  session_call (ESessionSetScene (Options.scene o))
               (Session.set_scene (Options.scene o)) ;;
  o <- get_options ;;
  (if SessionParams.background (Options.session_params o)
      && negb (Options.quiet o)
   then set_update_callback cb_session_print_status
   else if WITH_CYCLES_STANDALONE_GUI
        then set_update_callback cb_view_redraw
        else ret tt) ;;
  session_call ESessionStart Session.start ;;
  modify (set_scene None).

(** [session_init] up to and including [options.session->start()]: all its
    statements but the last one, [options.scene = NULL]. *)
Definition session_init_until_start : Driver unit :=
  o <- get_options ;;
  emit (ESessionNew (Options.session_params o)) ;;
  modify (set_session (Some (Session.new (Options.session_params o)))) ;;
  session_reset ;;
  o <- get_options ;;
  session_call (ESessionSetScene (Options.scene o))
               (Session.set_scene (Options.scene o)) ;;
  o <- get_options ;;
  (if SessionParams.background (Options.session_params o)
      && negb (Options.quiet o)
   then set_update_callback cb_session_print_status
   else if WITH_CYCLES_STANDALONE_GUI
        then set_update_callback cb_view_redraw
        else ret tt) ;;
  session_call ESessionStart Session.start.

Definition scene_init (width height : Z) : Driver unit :=
  o <- get_options ;;
  emit (ESceneNew (Options.scene_params o)
                  (SessionParams.device (Options.session_params o))) ;;
  let sc := Scene_new (Options.scene_params o)
                      (SessionParams.device (Options.session_params o)) in
  modify (set_scene (Some sc)) ;;
  o <- get_options ;;
  emit (EXmlReadFile (c_str (Options.filepath o))) ;;
  let sc := xml_read_file sc (c_str (Options.filepath o)) in
  modify (set_scene (Some sc)) ;;
  if (width =? 0) || (height =? 0) then
    modify (set_width (Camera.width (Scene.camera sc))) ;;
    modify (set_height (Camera.height (Scene.camera sc)))
  else ret tt.

Definition session_exit : Driver unit :=
  o <- get_options ;;
  match Options.session o with
  | Some s => emit (ESessionDelete s) ;; modify (set_session None)
  | None => ret tt
  end ;;
  o <- get_options ;;
  match Options.scene o with
  | Some sc => emit (ESceneDelete sc) ;; modify (set_scene None)
  | None => ret tt
  end ;;
  o <- get_options ;;
  if SessionParams.background (Options.session_params o)
     && negb (Options.quiet o)
  then session_print "Finished Rendering." ;; emit (EStdout LF)
  else ret tt.

(** *** display_info, display, resize, keyboard (GUI build only) *)

(** The text handed to [view_display_info] also holds the latency measured
    with [time_dt]; the event keeps the values read from the progress. *)
Definition display_info (p : Progress.t) : Driver unit :=
  emit EGetSample ;;
  let sample := Progress.get_sample p in
  emit EGetTile ;;
  emit EGetStatus ;;
  let (status, substatus) := Progress.get_status p in
  let status :=
    if String.eqb substatus "" then status
    else (status ++ ": " ++ substatus)%string in
  emit (EViewDisplayInfo (c_str status) sample) ;;
  o <- get_options ;;
  if Options.show_help o then emit EViewDisplayHelp else ret tt.

Definition display : Driver unit :=
  bp <- session_buffer_params ;;
  session_call (ESessionDraw bp) (fun s => s) ;;
  s <- deref_session ;;
  display_info (Session.progress s).

Definition resize (width height : Z) : Driver unit :=
  modify (set_width width) ;;
  modify (set_height height) ;;
  o <- get_options ;;
  match Options.session o with
  | Some _ => session_reset
  | None => ret tt
  end.

Definition keyboard (key : ascii) : Driver unit :=
  if Ascii.eqb key "r"%char then session_reset
  else if Ascii.eqb key "h"%char then
    o <- get_options ;;
    modify (set_show_help (negb (Options.show_help o)))
  else if Ascii.eqb key "027"%char then
    session_call (ESetCancel "Canceled")
      (fun s => Session.with_progress
                  (Progress.set_cancel "Canceled" (Session.progress s)) s)
  else ret tt.

(** *** files_parse, options_parse *)

Definition files_parse (argv : list string) : Driver Z :=
  match argv with
  | a :: _ => modify (set_filepath a)
  | [] => ret tt
  end ;;
  ret 0.

(** The loop that joins the names of the available device types. *)
Fixpoint join_device_names (types : list DeviceType) (device_names : string)
  : string :=
  match types with
  | [] => device_names
  | type :: rest =>
      let device_names :=
        if String.eqb device_names "" then device_names
        else (device_names ++ ", ")%string in
      join_device_names rest (device_names ++ string_from_type type)%string
  end.

Definition usage : Driver unit :=
  emit (EUsage (c_str ("Devices to use: "
                       ++ join_device_names available_types "")%string)).

(** The stores [ap.parse] makes through the pointers of the option table,
    and its calls of [files_parse]. *)
Fixpoint sublist_calls (calls : list (list string)) : Driver unit :=
  match calls with
  | [] => ret tt
  | argv :: rest => files_parse argv ;; sublist_calls rest
  end.

Definition ap_parse (cl : CommandLine.t) : Driver Z :=
  sublist_calls (CommandLine.files cl) ;;
  o <- get_options ;;
  let p := Options.session_params o in
  modify (set_session_params
            (SessionParams.mk
               (SessionParams.device p)
               (if CommandLine.background cl then true
                else SessionParams.background p)
               (SessionParams.progressive p)
               (store (CommandLine.samples cl) (SessionParams.samples p))
               (store (CommandLine.output cl) (SessionParams.output_path p))
               (store (CommandLine.threads cl) (SessionParams.threads p)))) ;;
  o <- get_options ;;
  modify (set_quiet
            (if CommandLine.quiet cl then true else Options.quiet o)) ;;
  o <- get_options ;;
  modify (set_width (store (CommandLine.width cl) (Options.width o))) ;;
  o <- get_options ;;
  modify (set_height (store (CommandLine.height cl) (Options.height o))) ;;
  ret (CommandLine.parse cl).

(** The loop over the available devices, left at the first match. *)
Fixpoint find_device (device_type : DeviceType)
  (devices : list DeviceInfo.t) (current : DeviceInfo.t)
  : DeviceInfo.t * bool :=
  match devices with
  | [] => (current, false)
  | device :: rest =>
      if DeviceType_eqb device_type (DeviceInfo.type device)
      then (device, true)
      else find_device device_type rest current
  end.

Definition list_line (info : DeviceInfo.t) : Event :=
  EStdout ("    " ++ c_str (DeviceInfo.description info)
           ++ (if DeviceInfo.display_device info then " (display)" else "")
           ++ LF)%string.

Definition with_device (d : DeviceInfo.t) (p : SessionParams.t)
  : SessionParams.t :=
  SessionParams.mk d (SessionParams.background p)
    (SessionParams.progressive p) (SessionParams.samples p)
    (SessionParams.output_path p) (SessionParams.threads p).
Definition with_background (b : bool) (p : SessionParams.t)
  : SessionParams.t :=
  SessionParams.mk (SessionParams.device p) b
    (SessionParams.progressive p) (SessionParams.samples p)
    (SessionParams.output_path p) (SessionParams.threads p).
Definition with_progressive (b : bool) (p : SessionParams.t)
  : SessionParams.t :=
  SessionParams.mk (SessionParams.device p) (SessionParams.background p) b
    (SessionParams.samples p) (SessionParams.output_path p)
    (SessionParams.threads p).

Definition options_parse (cl : CommandLine.t) : Driver unit :=
  modify (set_width 0) ;;
  modify (set_height 0) ;;
  modify (set_filepath "") ;;
  modify (set_session None) ;;
  modify (set_quiet false) ;;
  let devicename := store (CommandLine.device cl) "cpu" in
  let list := CommandLine.list_devices cl in
  let ssname :=
    if WITH_OSL then store (CommandLine.shadingsys cl) "svm" else "svm" in
  let help := CommandLine.help cl in
  rc <- ap_parse cl ;;
  o <- get_options ;;
  (if rc <? 0 then
     emit (EStderr (c_str (CommandLine.geterror cl) ++ LF)%string) ;;
     usage ;;
     exit EXIT_FAILURE
   else if list then
     emit (EStdout ("Devices:" ++ LF)%string) ;;
     emits (map list_line available_devices) ;;
     exit EXIT_SUCCESS
   else if help || String.eqb (Options.filepath o) "" then
     usage ;;
     exit EXIT_SUCCESS
   else ret tt) ;;
  (if String.eqb ssname "osl" then
     modify (set_scene_params (SceneParams.mk SceneParams.OSL))
   else if String.eqb ssname "svm" then
     modify (set_scene_params (SceneParams.mk SceneParams.SVM))
   else ret tt) ;;
  o <- get_options ;;
  (if WITH_CYCLES_STANDALONE_GUI then
     if negb (SessionParams.background (Options.session_params o)) then
       modify (set_session_params
                 (with_progressive true (Options.session_params o)))
     else ret tt
   else
     modify (set_session_params
               (with_background true (Options.session_params o)))) ;;
  let device_type := type_from_string (c_str devicename) in
  o <- get_options ;;
  let (device, device_available) :=
    find_device device_type available_devices
      (SessionParams.device (Options.session_params o)) in
  modify (set_session_params (with_device device (Options.session_params o))) ;;
  o <- get_options ;;
  let p := Options.session_params o in
  (if DeviceType_eqb (DeviceInfo.type (SessionParams.device p)) DEVICE_NONE
      || negb device_available then
     emit (EStderr ("Unknown device: " ++ c_str devicename ++ LF)%string) ;;
     exit EXIT_FAILURE
   else if WITH_OSL
           && negb (String.eqb ssname "osl" || String.eqb ssname "svm") then
     emit (EStderr ("Unknown shading system: " ++ c_str ssname ++ LF)%string) ;;
     exit EXIT_FAILURE
   else if WITH_OSL
           && (match SceneParams.shadingsystem (Options.scene_params o) with
               | SceneParams.OSL => true
               | SceneParams.SVM => false
               end)
           && negb (DeviceType_eqb
                      (DeviceInfo.type (SessionParams.device p)) DEVICE_CPU)
   then
     emit (EStderr ("OSL shading system only works with CPU device"
                    ++ LF)%string) ;;
     exit EXIT_FAILURE
   else if SessionParams.samples p <? 0 then
     emit (EStderr ("Invalid number of samples: "
                    ++ dec (SessionParams.samples p) ++ LF)%string) ;;
     exit EXIT_FAILURE
   else if String.eqb (Options.filepath o) "" then
     emit (EStderr ("No file path specified" ++ LF)%string) ;;
     exit EXIT_FAILURE
   else ret tt) ;;
  o <- get_options ;;
  scene_init (Options.width o) (Options.height o).

(** *** main *)

(** [options.session->wait()]. *)
Definition session_wait : Driver unit :=
  session_call ESessionWait Session.wait.

Definition run_call (c : Call) : Driver unit :=
  match c with
  | call_initf => session_init
  | call_exitf => session_exit
  | call_resize w h => resize w h
  | call_display => display
  | call_keyboard k => keyboard k
  | call_wait => session_wait
  end.

Fixpoint run_calls (cs : list Call) : Driver unit :=
  match cs with
  | [] => ret tt
  | c :: rest => run_call c ;; run_calls rest
  end.

(** In a GUI build without the background flag [main] hands [session_init],
    [session_exit], [resize], [display] and [keyboard] to [view_main_loop],
    which calls them while it runs. *)
Definition main (cl : CommandLine.t) : Driver Z :=
  emit EPathInit ;;
  options_parse cl ;;
  o <- get_options ;;
  (if negb WITH_CYCLES_STANDALONE_GUI
      || SessionParams.background (Options.session_params o)
   then
     session_init ;;
     session_wait ;;
     session_exit
   else
     let title := ("Cycles: " ++ path_filename (Options.filepath o))%string in
     emit (EViewMainLoop (c_str title) (Options.width o) (Options.height o)) ;;
     run_calls
       (view_calls (c_str title) (Options.width o) (Options.height o))) ;;
  ret 0.
End Driver.

(** ** The OSL node (node_brightness) *)

Module OSL.

(** An OSL [float] is an IEEE-754 binary32 value: 24 bits of precision,
    infinities at exponent 128.  The literals of the shader are exact. *)
Definition float := spec_float.
Definition prec : Z := 24.
Definition emax : Z := 128.
Definition add : float -> float -> float := SFadd prec emax.
Definition sub : float -> float -> float := SFsub prec emax.
Definition mul : float -> float -> float := SFmul prec emax.
Definition ltb : float -> float -> bool := SFltb.
Definition zero : float := S754_zero false.
Definition one : float := S754_finite false 8388608 (-23).
Definition half : float := S754_finite false 8388608 (-24).

(** A [color] and its component access [c[i]], i = 0, 1, 2. *)
Inductive index := i0 | i1 | i2.
Record color := mkcolor { c0 : float; c1 : float; c2 : float }.
Definition component (c : color) (i : index) : float :=
  match i with
  | i0 => c0 c
  | i1 => c1 c
  | i2 => c2 c
  end.

Section Shader.
(** [max] is a builtin declared in stdosl.h, which is not among the
    sources; the shader is parametrised by it. *)
Variable max : float -> float -> float.

Definition node_brightness (ColorIn : color) (Bright Contrast : float)
  : color :=
  let a := add one Contrast in
  let b := sub Bright (mul Contrast half) in
  mkcolor (max (add (mul a (component ColorIn i0)) b) zero)
          (max (add (mul a (component ColorIn i1)) b) zero)
          (max (add (mul a (component ColorIn i2)) b) zero).

End Shader.

(** A maximum computed by comparison and selection, [a > b ? a : b]. *)
Definition select_max (a b : float) : float := if ltb b a then a else b.

End OSL.

(** ** Vocabulary of the statements

    What the driver functions compute, written as plain functions of
    [options] and of the command line; the run lemmas below prove that the
    monadic code computes exactly these. *)

Section Vocabulary.
Context {build : Build} {dev : Device} {loader : SceneLoader} {view : View}.

(** The blanks [session_print] writes after [str] when the longest line so
    far had [m] characters. *)
Definition padding (str : string) (m : Z) : list Event :=
  repeat (EStdout " ")
    (Z.to_nat (Z.max (Z.of_nat (String.length str)) m
               - Z.of_nat (String.length str))).

(** The value [session_buffer_params] returns. *)
Definition frame_of (o : Options.t) : BufferParams.t :=
  BufferParams.mk (Options.width o) (Options.height o)
                  (Options.width o) (Options.height o).

(** The callback [session_init] binds, if any. *)
Definition registered (o : Options.t) : option Callback :=
  if SessionParams.background (Options.session_params o)
     && negb (Options.quiet o)
  then Some cb_session_print_status
  else if WITH_CYCLES_STANDALONE_GUI then Some cb_view_redraw else None.

Definition register (cb : option Callback) (s : Session.t) : Session.t :=
  match cb with
  | Some c =>
      Session.with_progress
        (Progress.set_update_callback c (Session.progress s)) s
  | None => s
  end.

(** The session [session_init] leaves behind [options.session]. *)
Definition started_session (o : Options.t) : Session.t :=
  Session.start
    (register (registered o)
       (Session.set_scene (Options.scene o)
          (Session.reset (frame_of o)
             (SessionParams.samples (Options.session_params o))
             (Session.new (Options.session_params o))))).

Definition callback_events (cb : option Callback) : list Event :=
  match cb with
  | Some c => [ESetUpdateCallback c]
  | None => []
  end.

(** The calls of [session_init], in order. *)
Definition session_init_events (o : Options.t) : list Event :=
  [ESessionNew (Options.session_params o);
   ESessionReset (frame_of o)
     (SessionParams.samples (Options.session_params o));
   ESessionSetScene (Options.scene o)]
  ++ callback_events (registered o) ++ [ESessionStart].

(** The closing message of [session_exit]. *)
Definition finish_events (o : Options.t) (m : Z) : list Event :=
  if SessionParams.background (Options.session_params o)
     && negb (Options.quiet o)
  then EStdout (CR ++ "Finished Rendering.")
       :: padding "Finished Rendering." m ++ [EFlush; EStdout LF]
  else [].

(** The two [delete] branches of [session_exit]. *)
Definition delete_events (o : Options.t) : list Event :=
  match Options.session o with
  | Some s => [ESessionDelete s]
  | None => []
  end
  ++ match Options.scene o with
     | Some sc => [ESceneDelete sc]
     | None => []
     end.

(** [options.filepath] after the calls of [files_parse]. *)
Fixpoint last_file (calls : list (list string)) (current : string) : string :=
  match calls with
  | [] => current
  | argv :: rest =>
      last_file rest (match argv with a :: _ => a | [] => current end)
  end.

(** [options] after [ap.parse]. *)
Definition parsed (cl : CommandLine.t) (o : Options.t) : Options.t :=
  let p := Options.session_params o in
  Options.mk (Options.session o) (Options.scene o)
    (last_file (CommandLine.files cl) (Options.filepath o))
    (store (CommandLine.width cl) (Options.width o))
    (store (CommandLine.height cl) (Options.height o))
    (Options.scene_params o)
    (SessionParams.mk (SessionParams.device p)
       (if CommandLine.background cl then true
        else SessionParams.background p)
       (SessionParams.progressive p)
       (store (CommandLine.samples cl) (SessionParams.samples p))
       (store (CommandLine.output cl) (SessionParams.output_path p))
       (store (CommandLine.threads cl) (SessionParams.threads p)))
    (if CommandLine.quiet cl then true else Options.quiet o)
    (Options.show_help o).

(** [options] after the initial assignments of [options_parse] and
    [ap.parse]. *)
Definition entered (cl : CommandLine.t) (o : Options.t) : Options.t :=
  parsed cl
    (set_quiet false
       (set_session None
          (set_filepath "" (set_height 0 (set_width 0 o))))).

(** The locals [devicename] and [ssname] after [ap.parse]. *)
Definition devicename (cl : CommandLine.t) : string :=
  store (CommandLine.device cl) "cpu".
Definition ssname (cl : CommandLine.t) : string :=
  if WITH_OSL then store (CommandLine.shadingsys cl) "svm" else "svm".

(** The assignment of the shading system. *)
Definition shaded (ss : string) (o : Options.t) : Options.t :=
  if String.eqb ss "osl"
  then set_scene_params (SceneParams.mk SceneParams.OSL) o
  else if String.eqb ss "svm"
       then set_scene_params (SceneParams.mk SceneParams.SVM) o
       else o.

(** The conditional compilation block on the GUI. *)
Definition moded (o : Options.t) : Options.t :=
  if WITH_CYCLES_STANDALONE_GUI then
    if negb (SessionParams.background (Options.session_params o))
    then set_session_params
           (with_progressive true (Options.session_params o)) o
    else o
  else set_session_params (with_background true (Options.session_params o)) o.

(** The outcome of the device loop: the device and [device_available]. *)
Definition matched (cl : CommandLine.t) (o : Options.t)
  : DeviceInfo.t * bool :=
  find_device (type_from_string (c_str (devicename cl))) available_devices
    (SessionParams.device (Options.session_params o)).

(** [options] when the configuration checks are made. *)
Definition configured (cl : CommandLine.t) (o : Options.t) : Options.t :=
  let o2 := moded (shaded (ssname cl) (entered cl o)) in
  set_session_params
    (with_device (fst (matched cl o2)) (Options.session_params o2)) o2.

(** The first of the configuration checks. *)
Definition device_unknown (cl : CommandLine.t) (o : Options.t) : bool :=
  DeviceType_eqb
    (DeviceInfo.type
       (SessionParams.device (Options.session_params (configured cl o))))
    DEVICE_NONE
  || negb (snd (matched cl (moded (shaded (ssname cl) (entered cl o))))).

Definition osl_selected (o : Options.t) : bool :=
  match SceneParams.shadingsystem (Options.scene_params o) with
  | SceneParams.OSL => true
  | SceneParams.SVM => false
  end.

Definition usage_event : Event :=
  EUsage (c_str ("Devices to use: " ++ join_device_names available_types "")).

(** The scene [scene_init] builds, its calls, and [options] afterwards. *)
Definition loaded_scene (o : Options.t) : Scene.t :=
  xml_read_file
    (Scene_new (Options.scene_params o)
               (SessionParams.device (Options.session_params o)))
    (c_str (Options.filepath o)).

Definition scene_init_events (o : Options.t) : list Event :=
  [ESceneNew (Options.scene_params o)
             (SessionParams.device (Options.session_params o));
   EXmlReadFile (c_str (Options.filepath o))].

Definition after_scene_init (width height : Z) (o : Options.t) : Options.t :=
  let sc := loaded_scene o in
  let o' := set_scene (Some sc) o in
  if (width =? 0) || (height =? 0)
  then set_height (Camera.height (Scene.camera sc))
         (set_width (Camera.width (Scene.camera sc)) o')
  else o'.

(** The scene pointer held by the session, when there is a session. *)
Definition owned_scene (o : Options.t) : option (option Scene.t) :=
  option_map Session.scene (Options.session o).

(** The calls that neither create nor destroy the session. *)
Definition session_only (c : Call) : bool :=
  match c with
  | call_initf | call_exitf => false
  | _ => true
  end.

(** Buffer parameters that describe the full frame, and the events that
    hand buffer parameters to the session. *)
Definition full_frame (bp : BufferParams.t) : Prop :=
  BufferParams.full_width bp = BufferParams.width bp
  /\ BufferParams.full_height bp = BufferParams.height bp.

Definition passes_full_frame (e : Event) : Prop :=
  match e with
  | ESessionReset bp _ | ESessionDraw bp => full_frame bp
  | _ => True
  end.

(** Every event a computation emits satisfies [P], whatever the state it
    starts from and however it ends. *)
Definition emits_only {A} (P : Event -> Prop) (m : Driver A) : Prop :=
  forall g, Forall P (events (m g)).

(** The events that create, load, use or destroy a scene or a session. *)
Definition touches_scene_or_session (e : Event) : bool :=
  match e with
  | ESceneNew _ _ | EXmlReadFile _ | ESceneDelete _
  | ESessionNew _ | ESessionReset _ _ | ESessionSetScene _
  | EGetSample | EGetTile | EGetStatus
  | ESetUpdateCallback _ | ESetCancel _
  | ESessionStart | ESessionWait | ESessionDraw _ | ESessionDelete _ => true
  | _ => false
  end.

End Vocabulary.

(** ** A concrete installation, for running the model *)

Module Demo.

Definition cpu : DeviceInfo.t := DeviceInfo.mk DEVICE_CPU "Intel Core i7" true.
Definition cuda : DeviceInfo.t :=
  DeviceInfo.mk DEVICE_CUDA "GeForce GTX 680" false.

Definition background_build : Build :=
  {| WITH_OSL := true; WITH_CYCLES_STANDALONE_GUI := false |}.
Definition gui_build : Build :=
  {| WITH_OSL := true; WITH_CYCLES_STANDALONE_GUI := true |}.

Definition registry : Device :=
  {| available_types := [DEVICE_CPU; DEVICE_CUDA];
     available_devices := [cpu; cuda];
     type_from_string := fun name =>
       if String.eqb name "cpu" then DEVICE_CPU
       else if String.eqb name "opencl" then DEVICE_OPENCL
       else if String.eqb name "cuda" then DEVICE_CUDA
       else if String.eqb name "network" then DEVICE_NETWORK
       else if String.eqb name "multi" then DEVICE_MULTI
       else DEVICE_NONE;
     string_from_type := fun type =>
       match type with
       | DEVICE_NONE => "none"
       | DEVICE_CPU => "cpu"
       | DEVICE_OPENCL => "opencl"
       | DEVICE_CUDA => "cuda"
       | DEVICE_NETWORK => "network"
       | DEVICE_MULTI => "multi"
       end |}.

(** A loader whose scene files all declare a 640x480 camera. *)
Definition loader : SceneLoader :=
  {| Scene_new := fun p d => Scene.mk p d (Camera.mk 1024 512);
     xml_read_file := fun sc _ =>
       Scene.mk (Scene.params sc) (Scene.device sc) (Camera.mk 640 480);
     path_filename := fun path => path |}.

(** A view loop that initialises the driver, sizes and draws the window,
    and hands on the escape key before it calls the exit function. *)
Definition window : View :=
  {| view_calls := fun _ _ _ =>
       [call_initf; call_resize 320 240; call_display;
        call_keyboard "027"; call_exitf] |}.

Definition options0 : Options.t :=
  Options.mk None None "" 0 0 (SceneParams.mk SceneParams.SVM)
    (SessionParams.mk cpu false false 10 "" 0) false false.
Definition globals0 : Globals := mkGlobals options0 0.

(** [cycles] *)
Definition no_arguments : CommandLine.t :=
  CommandLine.mk 0 "" [] None None false false None None None None None
    false false.
(** [cycles --samples 4 scene.xml] *)
Definition render : CommandLine.t :=
  CommandLine.mk 0 "" [["scene.xml"]] None None false false (Some 4) None
    None None None false false.
(** [cycles --samples -1 scene.xml] *)
Definition negative_samples : CommandLine.t :=
  CommandLine.mk 0 "" [["scene.xml"]] None None false false (Some (-1)) None
    None None None false false.
(** [cycles --device bogus scene.xml] *)
Definition bogus_device : CommandLine.t :=
  CommandLine.mk 0 "" [["scene.xml"]] (Some "bogus") None false false None
    None None None None false false.
(** [cycles --device bogus --help scene.xml] *)
Definition bogus_device_help : CommandLine.t :=
  CommandLine.mk 0 "" [["scene.xml"]] (Some "bogus") None false false None
    None None None None false true.
(** [cycles --list-devices] *)
Definition list_devices : CommandLine.t :=
  CommandLine.mk 0 "" [] None None false false None None None None None
    true false.
(** [cycles --shadingsys osl --device cuda scene.xml] *)
Definition osl_on_cuda : CommandLine.t :=
  CommandLine.mk 0 "" [["scene.xml"]] (Some "cuda") (Some "osl") false false
    None None None None None false false.
(** [cycles --shadingsys osl --device cuda --list-devices scene.xml] *)
Definition osl_on_cuda_list : CommandLine.t :=
  CommandLine.mk 0 "" [["scene.xml"]] (Some "cuda") (Some "osl") false false
    None None None None None true false.

(** The driver state once [options_parse] has loaded the scene of
    [render]. *)
Definition loaded : Globals :=
  match result (options_parse (build := background_build) (dev := registry)
                  (loader := loader) render globals0) with
  | Return _ g => g
  | _ => globals0
  end.

(** The state after [session_init] in a GUI build, and after the view loop
    has then resized the window, redrawn, restarted the render with the
    [r] key and waited. *)
Definition started : Globals :=
  match result (session_init (build := gui_build) loaded) with
  | Return _ g => g
  | _ => globals0
  end.
(** The state inside [session_init] in a GUI build, when [start] has
    returned and the scene pointer of the driver is not yet cleared. *)
Definition starting : Globals :=
  match result (session_init_until_start (build := gui_build) loaded) with
  | Return _ g => g
  | _ => globals0
  end.
Definition interaction : list Call :=
  [call_resize 320 240; call_display; call_keyboard "r"; call_wait].
Definition interacted : Globals :=
  match result (run_calls (build := gui_build) interaction started) with
  | Return _ g => g
  | _ => globals0
  end.

(** A session in the middle of a render. *)
Definition rendering : Session.t :=
  Session.mk (Options.session_params options0) None
    (Progress.mk 7 3 (S754_zero false) (S754_zero false)
       "Path Tracing Tile 3/16" "Sample 7/10" false ""
       (Some cb_session_print_status))
    None 10 Session.Running.
Definition reporting : Globals :=
  mkGlobals (set_session (Some rendering) options0) 0.

End Demo.

(** ** The edge loop of bmo_triangle_fill_exec (bmo_triangulate.c) *)

Module TriangleFill.

Local Open Scope nat_scope.

(** A [BMVert *], cast to [uintptr_t] when it is used as a hash key. *)
Definition BMVertPtr := nat.

(** A [ScanFillVert *]: the position of the vertex in [fillvertbase]. *)
Definition ScanFillVertPtr := nat.

Record BMEdge := mkBMEdge { v1 : BMVertPtr; v2 : BMVertPtr }.

(** The coordinates [v->co] of a mesh vertex. *)
Class Coordinates := {
  co_t : Type;
  vert_co : BMVertPtr -> co_t
}.

(** [SmallHash], with the two operations of the loop; [None] is the NULL a
    failed lookup returns.  BLI_smallhash.c is not among the sources: the
    hash is an interface, and the proofs assume of it only that a lookup
    finds the latest value inserted under its key. *)
Class SmallHashOps := {
  SmallHash : Type;
  smallhash_init : SmallHash;
  smallhash_lookup : SmallHash -> BMVertPtr -> option ScanFillVertPtr;
  smallhash_insert : SmallHash -> BMVertPtr -> ScanFillVertPtr -> SmallHash
}.

Section Fill.
Context {coords : Coordinates} {hashops : SmallHashOps}.

Record ScanFillVert := mkScanFillVert {
  co : co_t;
  tmp_p : option BMVertPtr
}.

(** BLI_scanfill.c is not among the sources either: the context is the
    record of the vertices and of the edges the loop has added to it, in the
    order of the calls, and a [ScanFillVert *] is the position of the call
    that returned it. *)
Record ScanFillContext := mkScanFillContext {
  fillvertbase : list ScanFillVert;
  filledgebase : list (ScanFillVertPtr * ScanFillVertPtr)
}.

(** [BLI_scanfill_begin]: an empty context. *)
Definition scanfill_begin : ScanFillContext := mkScanFillContext [] [].

(** [BLI_scanfill_vert_add]: a new vertex at the end of the vertex list. *)
Definition scanfill_vert_add (ctx : ScanFillContext) (c : co_t)
  : ScanFillContext * ScanFillVertPtr :=
  (mkScanFillContext (fillvertbase ctx ++ [mkScanFillVert c None])
                     (filledgebase ctx),
   List.length (fillvertbase ctx)).

(** [BLI_scanfill_edge_add]: a new edge at the end of the edge list. *)
Definition scanfill_edge_add (ctx : ScanFillContext)
           (a b : ScanFillVertPtr) : ScanFillContext :=
  mkScanFillContext (fillvertbase ctx) (filledgebase ctx ++ [(a, b)]).

Fixpoint set_nth {A} (l : list A) (n : nat) (f : A -> A) : list A :=
  match l, n with
  | [], _ => []
  | x :: rest, O => f x :: rest
  | x :: rest, S n' => x :: set_nth rest n' f
  end.

(** [sf_vert->tmp.p = v]. *)
Definition set_tmp_p (ctx : ScanFillContext) (sf_vert : ScanFillVertPtr)
           (v : BMVertPtr) : ScanFillContext :=
  mkScanFillContext
    (set_nth (fillvertbase ctx) sf_vert
             (fun sv => mkScanFillVert (co sv) (Some v)))
    (filledgebase ctx).

(** What the loop works on: the hash, the scanfill context and the edges
    flagged EDGE_MARK. *)
Record State := mkState {
  hash : SmallHash;
  sf_ctx : ScanFillContext;
  edge_mark : list BMEdge
}.

(** The lookup of one end of an edge, and the three statements that run
    when it fails. *)
Definition vert_of (st : State) (v : BMVertPtr) : State * ScanFillVertPtr :=
  match smallhash_lookup (hash st) v with
  | Some sf_vert => (st, sf_vert)
  | None =>
      let (ctx, sf_vert) := scanfill_vert_add (sf_ctx st) (vert_co v) in
      let ctx := set_tmp_p ctx sf_vert v in
      (mkState (smallhash_insert (hash st) v sf_vert) ctx (edge_mark st),
       sf_vert)
  end.

(** The body of the loop over the input edges. *)
Definition fill_edge (st : State) (e : BMEdge) : State :=
  let st := mkState (hash st) (sf_ctx st) (edge_mark st ++ [e]) in
  let (st, sf_vert_1) := vert_of st (v1 e) in
  let (st, sf_vert_2) := vert_of st (v2 e) in
  mkState (hash st) (scanfill_edge_add (sf_ctx st) sf_vert_1 sf_vert_2)
          (edge_mark st).

Definition fill_edges (edges : list BMEdge) : State :=
  fold_left fill_edge edges (mkState smallhash_init scanfill_begin []).

(** The mesh vertex a scanfill vertex stands for. *)
Definition vert_at (ctx : ScanFillContext) (p : ScanFillVertPtr)
  : option BMVertPtr :=
  match nth_error (fillvertbase ctx) p with
  | Some sv => tmp_p sv
  | None => None
  end.

Definition endpoint (edges : list BMEdge) (v : BMVertPtr) : Prop :=
  exists e, In e edges /\ (v = v1 e \/ v = v2 e).

(** The scanfill edge [se] joins the scanfill vertices that stand for the
    two ends of the mesh edge [e]. *)
Definition joins (ctx : ScanFillContext) (e : BMEdge)
           (se : ScanFillVertPtr * ScanFillVertPtr) : Prop :=
  vert_at ctx (fst se) = Some (v1 e) /\ vert_at ctx (snd se) = Some (v2 e).

(** The hash and the vertex list describe the same one-to-one assignment. *)
Definition consistent (st : State) : Prop :=
  (forall v p, smallhash_lookup (hash st) v = Some p
               <-> vert_at (sf_ctx st) p = Some v)
  /\ (forall p sv, nth_error (fillvertbase (sf_ctx st)) p = Some sv ->
                   exists v, tmp_p sv = Some v /\ co sv = vert_co v).

(** What holds after the loop has run over [edges]. *)
Definition filled (edges : list BMEdge) (st : State) : Prop :=
  consistent st
  /\ edge_mark st = edges
  /\ Forall2 (joins (sf_ctx st)) edges (filledgebase (sf_ctx st))
  /\ forall v, (exists p, vert_at (sf_ctx st) p = Some v) <-> endpoint edges v.

End Fill.

(** An association list as the hash. *)
Definition alist := list (BMVertPtr * ScanFillVertPtr).
Fixpoint alist_lookup (h : alist) (k : BMVertPtr) : option ScanFillVertPtr :=
  match h with
  | [] => None
  | (k', p) :: rest => if Nat.eqb k k' then Some p else alist_lookup rest k
  end.
Definition alist_hash : SmallHashOps :=
  {| SmallHash := alist;
     smallhash_init := [];
     smallhash_lookup := alist_lookup;
     smallhash_insert := fun h k p => (k, p) :: h |}.

(** A mesh whose vertices lie on a line, and a triangle with a tail. *)
Definition on_a_line : Coordinates :=
  {| co_t := nat; vert_co := fun v => v |}.
Definition kite : list BMEdge :=
  [mkBMEdge 10 20; mkBMEdge 20 30; mkBMEdge 30 10; mkBMEdge 30 40].

End TriangleFill.

(** ** Further scenarios *)

Module Scenario.

(** [cycles --bogus-flag], which [ArgParse] rejects. *)
Definition rejected : CommandLine.t :=
  CommandLine.mk (-1) "Invalid option --bogus-flag" [] None None false false
    None None None None None true true.
(** [cycles --help scene.xml] *)
Definition help : CommandLine.t :=
  CommandLine.mk 0 "" [["scene.xml"]] None None false false None None None
    None None false true.
(** [cycles --shadingsys glsl scene.xml] *)
Definition glsl : CommandLine.t :=
  CommandLine.mk 0 "" [["scene.xml"]] None (Some "glsl") false false None
    None None None None false false.
(** [cycles --width 800 --height 600 scene.xml] *)
Definition sized : CommandLine.t :=
  CommandLine.mk 0 "" [["scene.xml"]] None None false false None None None
    (Some 800) (Some 600) false false.
(** [cycles --width 800 scene.xml] *)
Definition width_only : CommandLine.t :=
  CommandLine.mk 0 "" [["scene.xml"]] None None false false None None None
    (Some 800) None false false.
(** [cycles --quiet --samples 4 scene.xml] *)
Definition quiet : CommandLine.t :=
  CommandLine.mk 0 "" [["scene.xml"]] None None false true (Some 4) None
    None None None false false.
(** [cycles --device cuda scene.xml] on a machine with two CUDA cards. *)
Definition on_cuda : CommandLine.t :=
  CommandLine.mk 0 "" [["scene.xml"]] (Some "cuda") None false false None
    None None None None false false.
Definition cuda2 : DeviceInfo.t :=
  DeviceInfo.mk DEVICE_CUDA "GeForce GTX 480" false.
Definition two_cards : Device :=
  {| available_types := [DEVICE_CPU; DEVICE_CUDA];
     available_devices := [Demo.cpu; Demo.cuda; cuda2];
     type_from_string := type_from_string (Device := Demo.registry);
     string_from_type := string_from_type (Device := Demo.registry) |}.
Definition no_osl_build : Build :=
  {| WITH_OSL := false; WITH_CYCLES_STANDALONE_GUI := false |}.

(** A view loop that draws the window before it has called the init
    function. *)
Definition hasty : View :=
  {| view_calls := fun _ _ _ => [call_display; call_initf] |}.


(** The default colour 0.8, a negative value and a NaN. *)
Definition tint : OSL.color :=
  OSL.mkcolor (S754_finite false 13421773 (-24))
              (S754_finite true 8388608 (-23))
              S754_nan.

(** The driver state once [options_parse] has returned, on the machine of
    [Demo] unless another registry is given. *)
Definition parsed_by (b : Build) (d : Device) (cl : CommandLine.t) : Globals :=
  match result (options_parse (build := b) (dev := d) (loader := Demo.loader)
                  cl Demo.globals0) with
  | Return _ g => g
  | _ => Demo.globals0
  end.

(** The window is resized, drawn, resized again and drawn again. *)
Definition redraws : list Call :=
  [call_initf; call_resize 320 240; call_display; call_keyboard "h";
   call_resize 800 600; call_display].

End Scenario.

Section MoreVocabulary.
Context {build : Build} {dev : Device} {loader : SceneLoader} {view : View}.

(** The title [main] gives the window, and the calls [view_main_loop]
    makes of the functions handed to it, when [main] reaches it with the
    options [o]. *)
Definition window_title (o : Options.t) : string :=
  c_str ("Cycles: " ++ path_filename (Options.filepath o)).
Definition loop_calls (o : Options.t) : list Call :=
  view_calls (window_title o) (Options.width o) (Options.height o).


(** What a run writes to stdout, in order. *)
Fixpoint stdout_text (es : list Event) : string :=
  match es with
  | [] => ""
  | EStdout text :: rest => text ++ stdout_text rest
  | _ :: rest => stdout_text rest
  end.

(** The device a name selects: the first available one of its type. *)
Definition first_of_type (ty : DeviceType) (devs : list DeviceInfo.t)
           (d : DeviceInfo.t) : Prop :=
  exists before after,
    devs = before ++ d :: after
    /\ DeviceInfo.type d = ty
    /\ forall x, In x before -> DeviceInfo.type x <> ty.

Definition is_delete (e : Event) : bool :=
  match e with
  | ESessionDelete _ | ESceneDelete _ => true
  | _ => false
  end.

Definition is_stdout (e : Event) : bool :=
  match e with
  | EStdout _ => true
  | _ => false
  end.

(** The buffer parameters of the session's latest [reset] after the events
    [es], starting from [cur]; a new session has had none. *)
Fixpoint current_frame (cur : option BufferParams.t) (es : list Event)
  : option BufferParams.t :=
  match es with
  | [] => cur
  | ESessionNew _ :: rest => current_frame None rest
  | ESessionReset bp _ :: rest => current_frame (Some bp) rest
  | _ :: rest => current_frame cur rest
  end.

(** Every [draw] among the events [es] is given the buffer parameters of
    the latest [reset] before it. *)
Fixpoint draws_current (cur : option BufferParams.t) (es : list Event)
  : Prop :=
  match es with
  | [] => True
  | ESessionNew _ :: rest => draws_current None rest
  | ESessionReset bp _ :: rest => draws_current (Some bp) rest
  | ESessionDraw bp :: rest => cur = Some bp /\ draws_current cur rest
  | _ :: rest => draws_current cur rest
  end.

(** The events that involve no buffer parameters and no new session. *)
Definition frame_neutral (e : Event) : bool :=
  match e with
  | ESessionNew _ | ESessionReset _ _ | ESessionDraw _ => false
  | _ => true
  end.

(** The session, if there is one, was last reset to the frame that
    [session_buffer_params] now describes. *)
Definition frame_known (cur : option BufferParams.t) (g : Globals) : Prop :=
  Options.session (options g) = None \/ cur = Some (frame_of (options g)).

End MoreVocabulary.

(** ** Equations of the monad *)

Lemma prepend_nil {A} (r : list Event * Result A) : prepend [] r = r.
Proof. destruct r; reflexivity. Qed.

Lemma prepend_prepend {A} tr1 tr2 (r : list Event * Result A) :
  prepend tr1 (prepend tr2 r) = prepend (tr1 ++ tr2) r.
Proof. unfold prepend; simpl; now rewrite app_assoc. Qed.

Lemma prepend_pair {A} tr1 tr2 (r : Result A) :
  prepend tr1 (tr2, r) = (tr1 ++ tr2, r).
Proof. reflexivity. Qed.

Lemma bind_ret {A B} (a : A) (k : A -> Driver B) g : bind (ret a) k g = k a g.
Proof. unfold bind, ret; apply prepend_nil. Qed.

Lemma bind_emit {B} e (k : unit -> Driver B) g :
  bind (emit e) k g = prepend [e] (k tt g).
Proof. reflexivity. Qed.

Lemma bind_emits {B} es (k : unit -> Driver B) g :
  bind (emits es) k g = prepend es (k tt g).
Proof. reflexivity. Qed.

Lemma bind_exit {A B} code (k : A -> Driver B) g :
  bind (exit code) k g = ([], Exit code).
Proof. reflexivity. Qed.

Lemma bind_null_deref {A B} (k : A -> Driver B) g :
  bind null_deref k g = ([], NullDeref).
Proof. reflexivity. Qed.

Lemma bind_get_options {B} (k : Options.t -> Driver B) g :
  bind get_options k g = k (options g) g.
Proof. unfold bind, get_options; apply prepend_nil. Qed.

Lemma bind_get_maxlen {B} (k : Z -> Driver B) g :
  bind get_maxlen k g = k (maxlen g) g.
Proof. unfold bind, get_maxlen; apply prepend_nil. Qed.

Lemma bind_set_maxlen {B} n (k : unit -> Driver B) g :
  bind (set_maxlen n) k g = k tt (mkGlobals (options g) n).
Proof. unfold bind, set_maxlen; apply prepend_nil. Qed.

Lemma bind_modify {B} f (k : unit -> Driver B) g :
  bind (modify f) k g = k tt (mkGlobals (f (options g)) (maxlen g)).
Proof.
  unfold modify, bind, get_options, set_options; simpl.
  now rewrite !prepend_nil.
Qed.

Lemma bind_bind {A B C} (m : Driver A) (k : A -> Driver B)
      (h : B -> Driver C) g :
  bind (bind m k) h g = bind m (fun a => bind (k a) h) g.
Proof.
  unfold bind at 1 3. unfold bind at 1.
  destruct (m g) as [tr [a g'| |]]; try reflexivity.
  unfold bind. destruct (k a g') as [tr' [b g''| |]]; try reflexivity.
  cbn [prepend fst snd]. now rewrite prepend_prepend.
Qed.

(** A computation that neither emits nor leaves can be stepped over. *)
Lemma bind_silent {A B} (m : Driver A) (k : A -> Driver B) g a g' :
  m g = ([], Return a g') -> bind m k g = k a g'.
Proof. intros E; unfold bind; rewrite E; apply prepend_nil. Qed.

Lemma bind_emitting {A B} (m : Driver A) (k : A -> Driver B) g tr a g' :
  m g = (tr, Return a g') -> bind m k g = prepend tr (k a g').
Proof. intros E; unfold bind; now rewrite E. Qed.

Lemma bind_leaving {A B} (m : Driver A) (k : A -> Driver B) g tr code :
  m g = (tr, Exit code) -> bind m k g = (tr, Exit code).
Proof. intros E; unfold bind; now rewrite E. Qed.

Lemma run_ret {A} (a : A) g : ret a g = ([], Return a g).
Proof. reflexivity. Qed.

Lemma run_emit e g : emit e g = ([e], Return tt g).
Proof. reflexivity. Qed.

Lemma run_modify f g :
  modify f g = ([], Return tt (mkGlobals (f (options g)) (maxlen g))).
Proof. reflexivity. Qed.

Ltac drive :=
  repeat first
    [ rewrite bind_bind
    | rewrite bind_ret
    | rewrite bind_emit
    | rewrite bind_emits
    | rewrite bind_exit
    | rewrite bind_null_deref
    | rewrite bind_get_options
    | rewrite bind_get_maxlen
    | rewrite bind_set_maxlen
    | rewrite bind_modify
    | rewrite run_ret
    | rewrite run_emit
    | rewrite run_modify
    | rewrite prepend_prepend
    | rewrite prepend_pair
    | rewrite prepend_nil ].

(** ** What each driver function does *)

Section Proofs.
Context {build : Build} {dev : Device} {loader : SceneLoader} {view : View}.

Lemma times_emit n e g : times n (emit e) g = (repeat e n, Return tt g).
Proof.
  induction n as [|n IH]; simpl; [reflexivity|].
  rewrite bind_emit, IH. reflexivity.
Qed.

Lemma session_print_run str g :
  session_print str g =
  (EStdout (CR ++ c_str str) :: padding str (maxlen g) ++ [EFlush],
   Return tt (mkGlobals (options g)
                (Z.max (Z.of_nat (String.length str)) (maxlen g)))).
Proof.
  unfold session_print. drive. cbn [maxlen options].
  erewrite bind_emitting by apply times_emit.
  drive. reflexivity.
Qed.

Lemma session_print_status_run g s :
  Options.session (options g) = Some s ->
  session_print_status g =
  let line := status_line (Progress.get_sample (Session.progress s))
                          (Progress.get_status (Session.progress s)) in
  ([EGetSample; EGetTile; EGetStatus; EStdout (CR ++ c_str line)]
   ++ padding line (maxlen g) ++ [EFlush],
   Return tt (mkGlobals (options g)
                (Z.max (Z.of_nat (String.length line)) (maxlen g)))).
Proof.
  intros E. unfold session_print_status, deref_session. drive. rewrite E. drive.
  cbn [Progress.get_tile]. drive. rewrite E. drive. rewrite E. drive.
  rewrite session_print_run. reflexivity.
Qed.

Lemma session_call_run e f g s :
  Options.session (options g) = Some s ->
  session_call e f g =
  ([e],
   Return tt (mkGlobals (set_session (Some (f s)) (options g)) (maxlen g))).
Proof.
  intros E. unfold session_call, deref_session. drive. rewrite E. drive.
  reflexivity.
Qed.

Lemma session_call_null e f g :
  Options.session (options g) = None -> session_call e f g = ([], NullDeref).
Proof.
  intros E. unfold session_call, deref_session. drive. rewrite E. drive.
  reflexivity.
Qed.

Lemma session_reset_run g s :
  Options.session (options g) = Some s ->
  session_reset g =
  let n := SessionParams.samples (Options.session_params (options g)) in
  ([ESessionReset (frame_of (options g)) n],
   Return tt
     (mkGlobals
        (set_session (Some (Session.reset (frame_of (options g)) n s))
           (options g))
        (maxlen g))).
Proof.
  intros E. unfold session_reset, session_buffer_params. drive.
  now rewrite (session_call_run _ _ _ _ E).
Qed.

Lemma session_init_run g :
  session_init g =
  (session_init_events (options g),
   Return tt
     (mkGlobals
        (set_scene None
           (set_session (Some (started_session (options g))) (options g)))
        (maxlen g))).
Proof.
  destruct g as [o m]. unfold session_init. drive. cbn [options maxlen].
  erewrite bind_emitting by (apply session_reset_run; reflexivity).
  drive. cbn [options maxlen].
  erewrite bind_emitting by (apply session_call_run; reflexivity).
  drive. cbn [options maxlen].
  unfold session_init_events, started_session, registered, set_update_callback.
  destruct o as [se sc fp w h scp sp q sh]; cbn.
  destruct (SessionParams.background sp && negb q);
    [|destruct WITH_CYCLES_STANDALONE_GUI].
  - erewrite bind_emitting by (apply session_call_run; reflexivity). drive.
    erewrite bind_emitting by (apply session_call_run; reflexivity). drive.
    reflexivity.
  - erewrite bind_emitting by (apply session_call_run; reflexivity). drive.
    erewrite bind_emitting by (apply session_call_run; reflexivity). drive.
    reflexivity.
  - drive.
    erewrite bind_emitting by (apply session_call_run; reflexivity). drive.
    reflexivity.
Qed.

Lemma session_init_until_start_run g :
  session_init_until_start g =
  (session_init_events (options g),
   Return tt
     (mkGlobals (set_session (Some (started_session (options g))) (options g))
        (maxlen g))).
Proof.
  destruct g as [o m]. unfold session_init_until_start. drive.
  cbn [options maxlen].
  erewrite bind_emitting by (apply session_reset_run; reflexivity).
  drive. cbn [options maxlen].
  erewrite bind_emitting by (apply session_call_run; reflexivity).
  drive. cbn [options maxlen].
  unfold session_init_events, started_session, registered, set_update_callback.
  destruct o as [se sc fp w h scp sp q sh]; cbn.
  destruct (SessionParams.background sp && negb q);
    [|destruct WITH_CYCLES_STANDALONE_GUI].
  - erewrite bind_emitting by (apply session_call_run; reflexivity). drive.
    erewrite session_call_run by reflexivity. reflexivity.
  - erewrite bind_emitting by (apply session_call_run; reflexivity). drive.
    erewrite session_call_run by reflexivity. reflexivity.
  - drive. erewrite session_call_run by reflexivity. reflexivity.
Qed.

(** [session_init] is these statements followed by [options.scene = NULL]. *)
Lemma session_init_last_statement g :
  session_init g
  = bind session_init_until_start (fun _ => modify (set_scene None)) g.
Proof.
  rewrite session_init_run.
  erewrite bind_emitting by apply session_init_until_start_run.
  drive. cbn [options maxlen]. now rewrite app_nil_r.
Qed.

Lemma session_exit_run g :
  exists m',
  session_exit g =
  (delete_events (options g) ++ finish_events (options g) (maxlen g),
   Return tt (mkGlobals (set_scene None (set_session None (options g))) m')).
Proof.
  destruct g as [o m]. unfold session_exit, delete_events, finish_events. drive.
  cbn [options maxlen].
  destruct o as [se sc fp w h scp sp q sh]; cbn [Options.session Options.scene].
  destruct se as [s|], sc as [c|];
    repeat (progress (drive;
    cbn [options maxlen set_scene set_session Options.session Options.scene
         Options.session_params Options.quiet]));
    (destruct (SessionParams.background sp && negb q);
     [ erewrite bind_emitting by apply session_print_run; drive;
       cbn [maxlen app]; rewrite <- ?app_assoc; eexists; reflexivity
     | drive; eexists; reflexivity ]).
Qed.

Lemma sublist_calls_run calls g :
  sublist_calls calls g =
  ([],
   Return tt
     (mkGlobals
        (set_filepath (last_file calls (Options.filepath (options g)))
           (options g))
        (maxlen g))).
Proof.
  revert g; induction calls as [|argv rest IH]; intros [o m].
  - destruct o; reflexivity.
  - cbn [sublist_calls]. unfold files_parse. destruct argv as [|a argv]; drive.
    + rewrite IH. reflexivity.
    + rewrite IH. destruct o; reflexivity.
Qed.

Lemma ap_parse_run cl g :
  ap_parse cl g =
  ([], Return (CommandLine.parse cl)
         (mkGlobals (parsed cl (options g)) (maxlen g))).
Proof.
  destruct g as [o m]. unfold ap_parse.
  erewrite bind_silent by apply sublist_calls_run.
  drive. destruct o; reflexivity.
Qed.

Ltac enter_options_parse :=
  unfold options_parse; drive;
  erewrite bind_silent by apply ap_parse_run; drive;
  cbn [options maxlen];
  fold (devicename) (ssname).

Lemma shading_block {B} ss (k : unit -> Driver B) g :
  bind (if String.eqb ss "osl" then
          modify (set_scene_params (SceneParams.mk SceneParams.OSL))
        else if String.eqb ss "svm" then
          modify (set_scene_params (SceneParams.mk SceneParams.SVM))
        else ret tt) k g
  = k tt (mkGlobals (shaded ss (options g)) (maxlen g)).
Proof.
  destruct g as [o m]; unfold shaded.
  destruct (String.eqb ss "osl"); [|destruct (String.eqb ss "svm")]; drive;
    reflexivity.
Qed.

Lemma mode_block {B} o (k : unit -> Driver B) m :
  bind (if WITH_CYCLES_STANDALONE_GUI then
          if negb (SessionParams.background (Options.session_params o)) then
            modify (set_session_params
                      (with_progressive true (Options.session_params o)))
          else ret tt
        else
          modify (set_session_params
                    (with_background true (Options.session_params o))))
       k (mkGlobals o m)
  = k tt (mkGlobals (moded o) m).
Proof.
  unfold moded.
  destruct WITH_CYCLES_STANDALONE_GUI;
    [destruct (negb (SessionParams.background (Options.session_params o)))|];
    drive; reflexivity.
Qed.

Lemma filepath_configured cl o :
  Options.filepath (configured cl o) = last_file (CommandLine.files cl) "".
Proof.
  unfold configured, moded, shaded.
  repeat match goal with |- context [if ?b then _ else _] => destruct b end;
    reflexivity.
Qed.

Lemma filepath_entered cl o :
  Options.filepath (entered cl o) = last_file (CommandLine.files cl) "".
Proof. reflexivity. Qed.

(** [options_parse] as a decision list. *)
Lemma options_parse_cases cl g :
  options_parse cl g =
  let o := configured cl (options g) in
  let p := Options.session_params o in
  if CommandLine.parse cl <? 0 then
    ([EStderr (c_str (CommandLine.geterror cl) ++ LF); usage_event],
     Exit EXIT_FAILURE)
  else if CommandLine.list_devices cl then
    (EStdout ("Devices:" ++ LF) :: map list_line available_devices,
     Exit EXIT_SUCCESS)
  else if CommandLine.help cl
          || String.eqb (last_file (CommandLine.files cl) "") "" then
    ([usage_event], Exit EXIT_SUCCESS)
  else if device_unknown cl (options g) then
    ([EStderr ("Unknown device: " ++ c_str (devicename cl) ++ LF)],
     Exit EXIT_FAILURE)
  else if WITH_OSL
          && negb (String.eqb (ssname cl) "osl"
                   || String.eqb (ssname cl) "svm") then
    ([EStderr ("Unknown shading system: " ++ c_str (ssname cl) ++ LF)],
     Exit EXIT_FAILURE)
  else if WITH_OSL && osl_selected o
          && negb (DeviceType_eqb
                     (DeviceInfo.type (SessionParams.device p)) DEVICE_CPU)
  then
    ([EStderr ("OSL shading system only works with CPU device" ++ LF)],
     Exit EXIT_FAILURE)
  else if SessionParams.samples p <? 0 then
    ([EStderr ("Invalid number of samples: "
               ++ dec (SessionParams.samples p) ++ LF)],
     Exit EXIT_FAILURE)
  else
    scene_init (Options.width o) (Options.height o) (mkGlobals o (maxlen g)).
Proof.
  destruct g as [o m]. cbv zeta. cbn [options maxlen].
  enter_options_parse.
  fold (entered cl o).
  destruct (CommandLine.parse cl <? 0).
  { unfold usage. drive. reflexivity. }
  destruct (CommandLine.list_devices cl).
  { drive. now rewrite app_nil_r. }
  rewrite filepath_entered.
  destruct (CommandLine.help cl
            || (last_file (CommandLine.files cl) "" =? "")%string) eqn:Eg.
  { unfold usage. drive. reflexivity. }
  drive. rewrite shading_block. cbn [options maxlen].
  drive. cbn [options maxlen]. rewrite mode_block. drive. cbn [options maxlen].
  fold (devicename cl) (ssname cl).
  fold (matched cl (moded (shaded (ssname cl) (entered cl o)))).
  unfold device_unknown.
  pose proof (filepath_configured cl o) as Hf.
  unfold configured in *.
  destruct (matched cl (moded (shaded (ssname cl) (entered cl o)))) as [d av].
  cbn [fst snd] in *.
  drive. cbn [options maxlen].
  set (o3 := set_session_params _ _) in *.
  destruct (DeviceType_eqb _ DEVICE_NONE || negb av).
  { drive. reflexivity. }
  destruct (WITH_OSL && negb _).
  { drive. reflexivity. }
  unfold osl_selected.
  destruct (WITH_OSL && _ && _).
  { drive. reflexivity. }
  destruct (SessionParams.samples (Options.session_params o3) <? 0).
  { drive. reflexivity. }
  rewrite Hf. apply orb_false_elim in Eg. destruct Eg as [_ Eg]. rewrite Eg.
  drive. cbn [options]. reflexivity.
Qed.

Lemma DeviceType_eqb_eq a b : DeviceType_eqb a b = true <-> a = b.
Proof. destruct a, b; simpl; split; congruence. Qed.

Lemma find_device_found ty devs cur d :
  find_device ty devs cur = (d, true) -> DeviceInfo.type d = ty /\ In d devs.
Proof.
  induction devs as [|x rest IH]; simpl; [discriminate|].
  destruct (DeviceType_eqb ty (DeviceInfo.type x)) eqn:E.
  - intros [= <-]. apply DeviceType_eqb_eq in E. auto.
  - intros H. destruct (IH H). auto.
Qed.

Lemma find_device_missing ty devs cur :
  (forall d, In d devs -> DeviceInfo.type d <> ty) ->
  find_device ty devs cur = (cur, false).
Proof.
  induction devs as [|x rest IH]; simpl; intros H; [reflexivity|].
  destruct (DeviceType_eqb ty (DeviceInfo.type x)) eqn:E.
  - apply DeviceType_eqb_eq in E. exfalso. apply (H x); auto.
  - apply IH. intros d Hd. apply H. auto.
Qed.

Lemma device_configured cl o :
  SessionParams.device (Options.session_params (configured cl o))
  = fst (matched cl (moded (shaded (ssname cl) (entered cl o)))).
Proof. reflexivity. Qed.

(** A device name that resolves to the sentinel type, or to a type no
    available device has, is reported as unknown. *)
Lemma device_unknown_true cl o :
  type_from_string (c_str (devicename cl)) = DEVICE_NONE
  \/ (forall d, In d available_devices ->
               DeviceInfo.type d <> type_from_string (c_str (devicename cl))) ->
  device_unknown cl o = true.
Proof.
  intros H. unfold device_unknown. rewrite device_configured.
  unfold matched.
  destruct (find_device _ _ _) as [d [|]] eqn:F; cbn [fst snd];
    [|now rewrite orb_true_r].
  apply find_device_found in F. destruct F as [Ht Hin].
  destruct H as [H|H].
  - rewrite Ht, H. reflexivity.
  - exfalso. exact (H d Hin Ht).
Qed.

Lemma device_unknown_false cl o :
  device_unknown cl o = false ->
  DeviceInfo.type
    (SessionParams.device (Options.session_params (configured cl o)))
  = type_from_string (c_str (devicename cl)).
Proof.
  unfold device_unknown. rewrite device_configured. unfold matched.
  destruct (find_device _ _ _) as [d [|]] eqn:F; cbn [fst snd].
  - intros _. now apply find_device_found in F.
  - now rewrite orb_true_r.
Qed.

Lemma scene_init_run width height g :
  scene_init width height g =
  (scene_init_events (options g),
   Return tt
     (mkGlobals (after_scene_init width height (options g)) (maxlen g))).
Proof.
  destruct g as [o m].
  unfold scene_init, after_scene_init, scene_init_events, loaded_scene.
  drive. cbn [options maxlen].
  destruct o as [se sc fp w h scp sp q sh]; cbn.
  destruct ((width =? 0) || (height =? 0)); drive; reflexivity.
Qed.

(** [options_parse] returns only through [scene_init], with every
    configuration check passed. *)
Lemma options_parse_returns cl g g1 :
  result (options_parse cl g) = Return tt g1 ->
  let o := configured cl (options g) in
  options_parse cl g =
    (scene_init_events o,
     Return tt
       (mkGlobals
          (after_scene_init (Options.width o) (Options.height o) o)
          (maxlen g)))
  /\ CommandLine.list_devices cl = false
  /\ CommandLine.help cl = false
  /\ last_file (CommandLine.files cl) "" <> ""
  /\ device_unknown cl (options g) = false
  /\ (WITH_OSL = true -> osl_selected o = true ->
      DeviceInfo.type (SessionParams.device (Options.session_params o))
      = DEVICE_CPU)
  /\ 0 <= SessionParams.samples (Options.session_params o).
Proof.
  rewrite options_parse_cases. cbv zeta.
  destruct (CommandLine.parse cl <? 0); [discriminate|].
  destruct (CommandLine.list_devices cl); [discriminate|].
  destruct (CommandLine.help cl); [discriminate|]. cbn [orb].
  destruct (String.eqb_spec (last_file (CommandLine.files cl) "") "");
    [discriminate|].
  destruct (device_unknown cl (options g)); [discriminate|].
  destruct (WITH_OSL && negb _); [discriminate|].
  destruct (WITH_OSL && _ && _) eqn:Eo; [discriminate|].
  destruct (Z.ltb_spec
              (SessionParams.samples
                 (Options.session_params (configured cl (options g)))) 0);
    [discriminate|].
  intros _. rewrite scene_init_run. cbn [options maxlen].
  repeat split; auto.
  intros HO HS. rewrite HO, HS in Eo. cbn in Eo.
  apply negb_false_iff in Eo. now apply DeviceType_eqb_eq.
Qed.

Lemma session_wait_run g s :
  Options.session (options g) = Some s ->
  session_wait g =
  ([ESessionWait],
   Return tt
     (mkGlobals (set_session (Some (Session.wait s)) (options g)) (maxlen g))).
Proof. apply session_call_run. Qed.

(** C3: in background mode (a build without GUI, or the background flag
    set), once [options_parse] has returned, [main] makes its calls in this
    order: the session constructor, [reset] with the buffer parameters and
    the target sample count, the attachment of the scene, the binding of the
    progress callback if there is one, [start], then [wait], and only after
    [wait] the deletion of the session, followed by the closing message.  It
    returns 0 with neither session nor scene left in [options]. *)
Theorem background_main_order cl g g1 :
  result (options_parse cl g) = Return tt g1 ->
  WITH_CYCLES_STANDALONE_GUI = false
  \/ SessionParams.background (Options.session_params (options g1)) = true ->
  exists g2,
    main cl g =
      (EPathInit :: scene_init_events (configured cl (options g))
       ++ session_init_events (options g1)
       ++ [ESessionWait]
       ++ [ESessionDelete (Session.wait (started_session (options g1)))]
       ++ finish_events (options g1) (maxlen g1),
       Return 0 g2)
    /\ Options.session (options g2) = None
    /\ Options.scene (options g2) = None.
Proof.
  intros Hret Hbg.
  destruct (options_parse_returns _ _ _ Hret) as [Hrun _].
  assert (Hg1 : options_parse cl g
                = (scene_init_events (configured cl (options g)),
                   Return tt g1)).
  { rewrite Hrun in Hret |- *. cbn in Hret. now injection Hret as <-. }
  clear Hrun Hret.
  unfold main. drive.
  erewrite bind_emitting by exact Hg1. drive.
  assert (Hc : negb WITH_CYCLES_STANDALONE_GUI
               || SessionParams.background
                    (Options.session_params (options g1)) = true).
  { destruct Hbg as [-> | ->]; [reflexivity|apply orb_true_r]. }
  rewrite Hc. drive.
  erewrite bind_emitting by apply session_init_run. drive.
  erewrite bind_emitting by (apply session_wait_run; reflexivity). drive.
  cbn [options maxlen set_session set_scene Options.session Options.scene
       Options.filepath Options.width Options.height Options.scene_params
       Options.session_params Options.quiet Options.show_help].
  match goal with |- context [bind session_exit _ ?g] =>
    destruct (session_exit_run g) as [m' E] end.
  cbn [options maxlen] in E.
  erewrite bind_emitting by exact E. drive.
  eexists. split.
  - unfold delete_events, finish_events.
    cbn [set_session set_scene Options.session Options.scene
         Options.filepath Options.width Options.height Options.scene_params
         Options.session_params Options.quiet Options.show_help].
    rewrite <- !app_assoc. rewrite app_nil_r. reflexivity.
  - split; reflexivity.
Qed.

(** C4: called with width 0 and height 0, [scene_init] constructs the scene,
    loads the file into it, and leaves in [options.width] and
    [options.height] the width and height the camera of the loaded scene
    declares. *)
Theorem scene_init_camera_fallback g :
  let sc := loaded_scene (options g) in
  exists g',
    scene_init 0 0 g = (scene_init_events (options g), Return tt g')
    /\ Options.scene (options g') = Some sc
    /\ Options.width (options g') = Camera.width (Scene.camera sc)
    /\ Options.height (options g') = Camera.height (Scene.camera sc).
Proof.
  cbv zeta. rewrite scene_init_run. eexists. split; [reflexivity|].
  unfold after_scene_init. cbn. repeat split; reflexivity.
Qed.

(** The same from the command line: without [--width] and [--height] (or
    with both given as 0), a run of [options_parse] that returns leaves the
    camera's dimensions in [options]. *)
Lemma options_parse_camera_fallback cl g g1 :
  store (CommandLine.width cl) 0 = 0 ->
  store (CommandLine.height cl) 0 = 0 ->
  result (options_parse cl g) = Return tt g1 ->
  exists sc,
    Options.scene (options g1) = Some sc
    /\ Options.width (options g1) = Camera.width (Scene.camera sc)
    /\ Options.height (options g1) = Camera.height (Scene.camera sc).
Proof.
  intros Hw Hh Hret.
  destruct (options_parse_returns _ _ _ Hret) as [Hrun _].
  assert (Ew : Options.width (configured cl (options g)) = 0).
  { unfold configured, moded, shaded.
    repeat match goal with |- context [if ?b then _ else _] => destruct b end;
      exact Hw. }
  assert (Eh : Options.height (configured cl (options g)) = 0).
  { unfold configured, moded, shaded.
    repeat match goal with |- context [if ?b then _ else _] => destruct b end;
      exact Hh. }
  rewrite Ew, Eh in Hrun. rewrite Hrun in Hret.
  unfold result in Hret. cbn [snd] in Hret. injection Hret as <-.
  eexists. repeat split; reflexivity.
Qed.

(** C6: in background mode without [--quiet], [session_init] binds
    [session_print_status] as the update callback.  The callback is run
    without arguments; when it runs it calls [get_sample], [get_tile] and
    [get_status] on the progress of the session [options.session] points to
    at that moment, and the line it prints is made of the values these calls
    return and of nothing else. *)
Theorem print_status_pulls_progress :
  (forall g,
      SessionParams.background (Options.session_params (options g)) = true ->
      Options.quiet (options g) = false ->
      In (ESetUpdateCallback cb_session_print_status) (events (session_init g)))
  /\ (forall g s,
        Options.session (options g) = Some s ->
        let p := Session.progress s in
        let line :=
          status_line (Progress.get_sample p) (Progress.get_status p) in
        run_callback cb_session_print_status g =
          ([EGetSample; EGetTile; EGetStatus; EStdout (CR ++ c_str line)]
           ++ padding line (maxlen g) ++ [EFlush],
           Return tt (mkGlobals (options g)
                        (Z.max (Z.of_nat (String.length line)) (maxlen g))))).
Proof.
  split.
  - intros g Hb Hq. rewrite session_init_run.
    unfold session_init_events, registered. rewrite Hb, Hq.
    cbn. auto.
  - intros g s E. cbn [run_callback]. now apply session_print_status_run.
Qed.

Ltac run_driver :=
  repeat (progress
    (drive;
     cbn [options maxlen set_session set_scene set_width set_height
          set_show_help Options.session Options.scene
          Options.filepath Options.width Options.height Options.scene_params
          Options.session_params Options.quiet Options.show_help
          result events fst snd]));
  try discriminate.

Lemma session_only_keeps c g g' :
  session_only c = true ->
  result (run_call c g) = Return tt g' ->
  Options.scene (options g') = Options.scene (options g)
  /\ owned_scene (options g') = owned_scene (options g).
Proof.
  destruct g as [[se sc fp w h scp sp q sh] m].
  destruct c as [| |w' h'| |key|]; try discriminate; intros _; cbn [run_call];
    unfold resize, display, keyboard, session_wait, session_reset,
           session_buffer_params, display_info, session_call, deref_session.
  - destruct se as [s|]; run_driver; intros [= <-]; split; reflexivity.
  - destruct se as [s|]; run_driver.
    destruct (Progress.get_status (Session.progress s)) as [st sub].
    run_driver. destruct sh; run_driver; intros [= <-]; split; reflexivity.
  - destruct (Ascii.eqb key "r");
      [|destruct (Ascii.eqb key "h"); [|destruct (Ascii.eqb key "027")]];
      destruct se as [s|]; run_driver; intros [= <-]; split; reflexivity.
  - destruct se as [s|]; run_driver; intros [= <-]; split; reflexivity.
Qed.

Lemma run_call_scene_null c g g' :
  result (run_call c g) = Return tt g' ->
  Options.scene (options g) = None -> Options.scene (options g') = None.
Proof.
  destruct c as [| |w' h'| |key|] eqn:Ec.
  - cbn [run_call]. rewrite session_init_run. intros [= <-]. reflexivity.
  - cbn [run_call]. destruct (session_exit_run g) as [m' ->].
    intros [= <-]. reflexivity.
  - intros H. apply session_only_keeps in H; [|reflexivity].
    destruct H as [-> _]. auto.
  - intros H. apply session_only_keeps in H; [|reflexivity].
    destruct H as [-> _]. auto.
  - intros H. apply session_only_keeps in H; [|reflexivity].
    destruct H as [-> _]. auto.
  - intros H. apply session_only_keeps in H; [|reflexivity].
    destruct H as [-> _]. auto.
Qed.

Lemma run_calls_cons c cs g :
  run_calls (c :: cs) g = bind (run_call c) (fun _ => run_calls cs) g.
Proof. reflexivity. Qed.

Lemma bind_returns {A B} (m : Driver A) (k : A -> Driver B) g b g' :
  result (bind m k g) = Return b g' ->
  exists a g1, result (m g) = Return a g1 /\ result (k a g1) = Return b g'.
Proof.
  unfold bind. destruct (m g) as [tr [a g1| |]]; cbn; try discriminate.
  intros H. exists a, g1. split; [reflexivity|exact H].
Qed.

Lemma run_calls_scene_null cs g g' :
  result (run_calls cs g) = Return tt g' ->
  Options.scene (options g) = None -> Options.scene (options g') = None.
Proof.
  revert g; induction cs as [|c cs IH]; intros g.
  - cbn. intros [= <-]. auto.
  - rewrite run_calls_cons. intros H Hn.
    apply bind_returns in H. destruct H as [[] [g1 [H1 H2]]].
    eapply IH; [exact H2|]. eapply run_call_scene_null; eauto.
Qed.

Lemma session_only_calls_keep cs g g' :
  forallb session_only cs = true ->
  result (run_calls cs g) = Return tt g' ->
  Options.scene (options g') = Options.scene (options g)
  /\ owned_scene (options g') = owned_scene (options g).
Proof.
  revert g; induction cs as [|c cs IH]; intros g.
  - cbn. intros _ [= <-]. auto.
  - rewrite run_calls_cons. cbn [forallb]. intros Hc H.
    apply andb_true_iff in Hc. destruct Hc as [Hc Hcs].
    apply bind_returns in H. destruct H as [[] [g1 [H1 H2]]].
    destruct (IH _ Hcs H2) as [-> ->].
    now apply session_only_keeps with (c := c).
Qed.

Section EmitsOnly.
Variable P : Event -> Prop.

Lemma eo_ret {A} (a : A) : emits_only P (ret a).
Proof. intros g; constructor. Qed.

Lemma eo_exit {A} code : emits_only P (@exit A code).
Proof. intros g; constructor. Qed.

Lemma eo_null_deref {A} : emits_only P (@null_deref A).
Proof. intros g; constructor. Qed.

Lemma eo_get_options : emits_only P get_options.
Proof. intros g; constructor. Qed.

Lemma eo_get_maxlen : emits_only P get_maxlen.
Proof. intros g; constructor. Qed.

Lemma eo_set_maxlen n : emits_only P (set_maxlen n).
Proof. intros g; constructor. Qed.

Lemma eo_modify f : emits_only P (modify f).
Proof. intros g; constructor. Qed.

Lemma eo_emit e : P e -> emits_only P (emit e).
Proof. intros H g; repeat constructor; exact H. Qed.

Lemma eo_emits es : Forall P es -> emits_only P (emits es).
Proof. intros H g; exact H. Qed.

Lemma eo_bind {A B} (m : Driver A) (k : A -> Driver B) :
  emits_only P m -> (forall a, emits_only P (k a)) -> emits_only P (bind m k).
Proof.
  intros Hm Hk g. specialize (Hm g). unfold bind.
  destruct (m g) as [tr [a g'| |]]; cbn [events fst] in *; auto.
  apply Forall_app. split; [exact Hm|apply Hk].
Qed.

Lemma eo_bind_assoc {A B C} (m : Driver A) (k : A -> Driver B)
      (h : B -> Driver C) :
  emits_only P (bind m (fun a => bind (k a) h)) ->
  emits_only P (bind (bind m k) h).
Proof. intros H g. rewrite bind_bind. apply H. Qed.

Lemma eo_bind_ret {A B} (a : A) (k : A -> Driver B) :
  emits_only P (k a) -> emits_only P (bind (ret a) k).
Proof. intros H g. rewrite bind_ret. apply H. Qed.

Lemma eo_bind_get_options {B} (k : Options.t -> Driver B) :
  (forall o, emits_only P (k o)) -> emits_only P (bind get_options k).
Proof. intros H g. rewrite bind_get_options. apply H. Qed.

Lemma eo_times n body : emits_only P body -> emits_only P (times n body).
Proof.
  intros H. induction n as [|n IH]; cbn [times]; [apply eo_ret|].
  apply eo_bind; auto.
Qed.
End EmitsOnly.

Ltac eo_step :=
  match goal with
  | |- emits_only _ (bind (bind _ _) _) => apply eo_bind_assoc
  | |- emits_only _ (bind (ret _) _) => apply eo_bind_ret
  | |- emits_only _ (bind get_options _) => apply eo_bind_get_options; intros ?
  | |- emits_only _ (bind _ _) => apply eo_bind; [|intros ?]
  | |- emits_only _ (ret _) => apply eo_ret
  | |- emits_only _ (exit _) => apply eo_exit
  | |- emits_only _ null_deref => apply eo_null_deref
  | |- emits_only _ get_options => apply eo_get_options
  | |- emits_only _ get_maxlen => apply eo_get_maxlen
  | |- emits_only _ (set_maxlen _) => apply eo_set_maxlen
  | |- emits_only _ (modify _) => apply eo_modify
  | |- emits_only _ (times _ _) => apply eo_times
  | |- emits_only _ (emit _) => apply eo_emit
  | |- emits_only _ (if ?b then _ else _) => destruct b
  | |- emits_only _ (match ?x with _ => _ end) => destruct x
  end.

Ltac eo := repeat eo_step.

Lemma full_frame_session_print str :
  emits_only passes_full_frame (session_print str).
Proof. unfold session_print. eo; exact I. Qed.

Lemma full_frame_session_reset : emits_only passes_full_frame session_reset.
Proof.
  unfold session_reset, session_buffer_params, session_call, deref_session.
  eo; try exact I. split; reflexivity.
Qed.

Lemma full_frame_run_call c : emits_only passes_full_frame (run_call c).
Proof.
  destruct c; cbn [run_call];
    unfold session_init, session_exit, resize, display, keyboard, session_wait,
           set_update_callback, display_info, session_buffer_params,
           session_call, deref_session.
  all: eo; try exact I; try apply full_frame_session_reset;
    try apply full_frame_session_print; try (split; reflexivity).
Qed.

Lemma full_frame_run_calls cs : emits_only passes_full_frame (run_calls cs).
Proof.
  induction cs as [|c cs IH]; cbn [run_calls]; [apply eo_ret|].
  apply eo_bind; [apply full_frame_run_call|auto].
Qed.

Lemma full_frame_sublist_calls calls :
  emits_only passes_full_frame (sublist_calls calls).
Proof.
  induction calls as [|argv rest IH]; cbn [sublist_calls]; [apply eo_ret|].
  apply eo_bind; [|auto]. unfold files_parse. eo.
Qed.

Lemma full_frame_list_lines devs :
  Forall passes_full_frame (map list_line devs).
Proof. induction devs; constructor; auto. exact I. Qed.

Lemma full_frame_options_parse cl :
  emits_only passes_full_frame (options_parse cl).
Proof.
  unfold options_parse, ap_parse, usage, scene_init.
  eo; try exact I; try apply full_frame_sublist_calls.
  all: try (apply eo_emits; apply full_frame_list_lines).
Qed.

(** C8: the buffer parameters [session_buffer_params] builds have
    full_width = width and full_height = height, and so have all buffer
    parameters the driver ever hands to the session, through [reset] or
    [draw]: in a whole run of [main] and in every sequence of the calls
    [session_init], [resize], [display], [keyboard], [wait] and
    [session_exit], from any state. *)
Theorem driver_passes_full_frame :
  (forall g, exists bp,
      session_buffer_params g = ([], Return bp g) /\ full_frame bp)
  /\ (forall cl g, Forall passes_full_frame (events (main cl g)))
  /\ (forall cs g, Forall passes_full_frame (events (run_calls cs g))).
Proof.
  split; [|split].
  - intros g. eexists. split; [reflexivity|split; reflexivity].
  - intros cl. change (emits_only passes_full_frame (main cl)).
    unfold main. eo; try exact I; try apply full_frame_options_parse;
      try apply full_frame_run_calls.
    + apply (full_frame_run_call call_initf).
    + apply (full_frame_run_call call_wait).
    + apply (full_frame_run_call call_exitf).
  - intros cs. apply full_frame_run_calls.
Qed.

(** *** The ways out of options_parse *)

Lemma main_leaves cl g tr code :
  options_parse cl g = (tr, Exit code) ->
  main cl g = (EPathInit :: tr, Exit code).
Proof.
  intros E. unfold main. drive. erewrite bind_leaving by exact E. reflexivity.
Qed.

Lemma list_lines_touch_nothing devs :
  forallb (fun e => negb (touches_scene_or_session e)) (map list_line devs)
  = true.
Proof. induction devs; cbn; auto. Qed.

(** C7: when the arguments parse and [--list-devices] is given, the process
    prints the heading and then one line per available device, in the order
    of [Device::available_devices], each made of the description followed by
    [ (display)] for a display device; it then exits with a success status,
    without any call that constructs, loads or uses a scene or a session. *)
Theorem list_devices_prints_and_succeeds cl g :
  0 <= CommandLine.parse cl ->
  CommandLine.list_devices cl = true ->
  main cl g =
    (EPathInit :: EStdout ("Devices:" ++ LF) :: map list_line available_devices,
     Exit EXIT_SUCCESS)
  /\ forallb (fun e => negb (touches_scene_or_session e))
             (events (main cl g)) = true.
Proof.
  intros Hrc Hl.
  assert (E : main cl g =
    (EPathInit :: EStdout ("Devices:" ++ LF) :: map list_line available_devices,
     Exit EXIT_SUCCESS)).
  { apply main_leaves. rewrite options_parse_cases. cbv zeta.
    destruct (Z.ltb_spec (CommandLine.parse cl) 0); [lia|]. now rewrite Hl. }
  split; [exact E|]. rewrite E.
  cbn [events fst forallb touches_scene_or_session negb andb].
  apply list_lines_touch_nothing.
Qed.

(** C1, amended: when the arguments parse, neither [--list-devices] nor
    [--help] is given and a scene file is named, a device name that resolves
    to the sentinel type, or to a type no available device has, makes the
    process print [Unknown device: <name>] on stderr and exit with a failure
    status; nothing else happens, so no scene is loaded and no session is
    created or started. *)
Theorem unknown_device_is_fatal cl g :
  0 <= CommandLine.parse cl ->
  CommandLine.list_devices cl = false ->
  CommandLine.help cl = false ->
  last_file (CommandLine.files cl) "" <> "" ->
  type_from_string (c_str (devicename cl)) = DEVICE_NONE
  \/ (forall d, In d available_devices ->
               DeviceInfo.type d <> type_from_string (c_str (devicename cl))) ->
  main cl g =
    ([EPathInit; EStderr ("Unknown device: " ++ c_str (devicename cl) ++ LF)],
     Exit EXIT_FAILURE).
Proof.
  intros Hrc Hl Hh Hf Hd.
  apply main_leaves. rewrite options_parse_cases. cbv zeta.
  destruct (Z.ltb_spec (CommandLine.parse cl) 0); [lia|].
  rewrite Hl, Hh. cbn [orb].
  destruct (String.eqb_spec (last_file (CommandLine.files cl) "") ""); [contradiction|].
  now rewrite device_unknown_true.
Qed.

(** C2, amended: when no scene file is named, the process ends inside
    [options_parse], before any scene is loaded or session created: with a
    failure status if the arguments do not parse, and otherwise with a
    success status, after the device list if [--list-devices] is given and
    after the usage text if not. *)
Theorem missing_scene_path_ends_in_options_parse cl g :
  last_file (CommandLine.files cl) "" = "" ->
  main cl g =
    if CommandLine.parse cl <? 0 then
      ([EPathInit; EStderr (c_str (CommandLine.geterror cl) ++ LF);
        usage_event],
       Exit EXIT_FAILURE)
    else if CommandLine.list_devices cl then
      (EPathInit :: EStdout ("Devices:" ++ LF)
       :: map list_line available_devices,
       Exit EXIT_SUCCESS)
    else ([EPathInit; usage_event], Exit EXIT_SUCCESS).
Proof.
  intros Hf.
  pose proof (options_parse_cases cl g) as E. cbv zeta in E.
  rewrite Hf in E. cbn [String.eqb] in E. rewrite orb_true_r in E.
  destruct (CommandLine.parse cl <? 0); [now apply main_leaves|].
  destruct (CommandLine.list_devices cl); now apply main_leaves.
Qed.

(** The branch of the configuration checks that reports a missing file path
    is never taken. *)
Lemma no_file_path_message_never_printed cl g :
  0 <= CommandLine.parse cl ->
  ~ In (EStderr ("No file path specified" ++ LF)) (events (options_parse cl g)).
Proof.
  intros Hrc.
  rewrite options_parse_cases. cbv zeta.
  destruct (Z.ltb_spec (CommandLine.parse cl) 0); [lia|].
  repeat match goal with
         | |- context [if ?b then _ else _] => destruct b
         end;
    try rewrite scene_init_run; cbn [events fst scene_init_events].
  all: try (intros [E|[E|[]]]; discriminate E).
  all: try (intros [E|[]]; discriminate E).
  all: intros [E|E]; [discriminate E|].
  all: apply in_map_iff in E; destruct E as [d [E _]]; discriminate E.
Qed.

(** *** OSL and the CPU device *)

Lemma scene_params_configured cl o :
  Options.scene_params (configured cl o)
  = Options.scene_params (shaded (ssname cl) (entered cl o)).
Proof.
  unfold configured, moded.
  repeat match goal with |- context [if ?b then _ else _] => destruct b end;
    reflexivity.
Qed.

Lemma osl_selected_configured cl o :
  ssname cl = "osl" -> osl_selected (configured cl o) = true.
Proof.
  intros E. unfold osl_selected. rewrite scene_params_configured, E.
  reflexivity.
Qed.

Lemma osl_selected_only_with_osl cl o :
  osl_selected (configured cl o) = true -> WITH_OSL = true.
Proof.
  unfold osl_selected. rewrite scene_params_configured. unfold ssname, shaded.
  destruct WITH_OSL; [reflexivity|]. cbn. discriminate.
Qed.

(** C9, amended: in a build with OSL, when the arguments parse, neither
    [--list-devices] nor [--help] is given and a scene file is named,
    selecting the OSL shading system with a device name whose type is not
    the CPU type makes the process exit with a failure status after a single
    message on stderr (that the device is unknown if it is not available,
    that OSL only works with the CPU device otherwise), before any scene is
    loaded or session created.  And whenever [options_parse] returns with the
    OSL shading system selected, the selected device has the CPU type. *)
Theorem osl_needs_cpu_device :
  (forall cl g,
      WITH_OSL = true ->
      0 <= CommandLine.parse cl ->
      CommandLine.list_devices cl = false ->
      CommandLine.help cl = false ->
      last_file (CommandLine.files cl) "" <> "" ->
      CommandLine.shadingsys cl = Some "osl" ->
      type_from_string (c_str (devicename cl)) <> DEVICE_CPU ->
      main cl g =
        ([EPathInit;
          EStderr (if device_unknown cl (options g)
                   then "Unknown device: " ++ c_str (devicename cl) ++ LF
                   else "OSL shading system only works with CPU device" ++ LF)],
         Exit EXIT_FAILURE))
  /\ (forall cl g g1,
        result (options_parse cl g) = Return tt g1 ->
        SceneParams.shadingsystem (Options.scene_params (options g1))
        = SceneParams.OSL ->
        DeviceInfo.type
          (SessionParams.device (Options.session_params (options g1)))
        = DEVICE_CPU).
Proof.
  split.
  - intros cl g Hosl Hrc Hl Hh Hf Hs Hd.
    assert (Ess : ssname cl = "osl") by (unfold ssname; now rewrite Hosl, Hs).
    apply main_leaves. rewrite options_parse_cases. cbv zeta.
    destruct (Z.ltb_spec (CommandLine.parse cl) 0); [lia|].
    rewrite Hl, Hh. cbn [orb].
    destruct (String.eqb_spec (last_file (CommandLine.files cl) "") ""); [contradiction|].
    destruct (device_unknown cl (options g)) eqn:Eu; [reflexivity|].
    rewrite Ess. cbn [String.eqb Ascii.eqb Bool.eqb orb negb].
    rewrite andb_false_r.
    rewrite Hosl, osl_selected_configured by exact Ess.
    rewrite (device_unknown_false _ _ Eu).
    destruct (DeviceType_eqb _ DEVICE_CPU) eqn:Ec.
    + apply DeviceType_eqb_eq in Ec. contradiction.
    + reflexivity.
  - intros cl g g1 Hret Hs.
    destruct (options_parse_returns _ _ _ Hret)
      as (Hrun & _ & _ & _ & _ & Hcpu & _).
    rewrite Hrun in Hret. unfold result in Hret. cbn [snd] in Hret.
    injection Hret as <-.
    change (options (mkGlobals ?o ?m)) with o in *.
    assert (Ep : forall w h o,
               Options.session_params (after_scene_init w h o)
               = Options.session_params o
               /\ Options.scene_params (after_scene_init w h o)
                  = Options.scene_params o).
    { intros w h o. unfold after_scene_init.
      destruct ((w =? 0) || (h =? 0)); split; reflexivity. }
    rewrite (proj1 (Ep _ _ _)). rewrite (proj2 (Ep _ _ _)) in Hs.
    assert (Hsel : osl_selected (configured cl (options g)) = true)
      by (unfold osl_selected; now rewrite Hs).
    apply Hcpu; [|exact Hsel]. now apply osl_selected_only_with_osl in Hsel.
Qed.

(** *** session_exit after session_init *)

Lemma finish_events_print o m e :
  In e (finish_events o m) -> touches_scene_or_session e = false.
Proof.
  unfold finish_events, padding.
  destruct (_ && _); [|intros []].
  intros [<-|H]; [reflexivity|].
  apply in_app_or in H. destruct H as [H|[<-|[<-|[]]]]; try reflexivity.
  apply repeat_spec in H. now subst.
Qed.

Lemma session_exit_events g :
  events (session_exit g)
  = delete_events (options g) ++ finish_events (options g) (maxlen g).
Proof. destruct (session_exit_run g) as [m' ->]. reflexivity. Qed.

Lemma session_exit_without_scene g sc :
  Options.scene (options g) = None ->
  ~ In (ESceneDelete sc) (events (session_exit g)).
Proof.
  intros Hn. rewrite session_exit_events. unfold delete_events. rewrite Hn.
  intros H. apply in_app_or in H. destruct H as [H|H].
  - apply in_app_or in H. destruct H as [H|[]].
    destruct (Options.session (options g));
      [destruct H as [H|[]]; discriminate H|destruct H].
  - apply finish_events_print in H. discriminate H.
Qed.

Lemma started_session_running o : Session.running (started_session o) = true.
Proof.
  unfold started_session, register. destruct (registered o); reflexivity.
Qed.

Lemma started_session_scene o :
  Session.scene (started_session o) = Options.scene o.
Proof.
  unfold started_session, register. destruct (registered o); reflexivity.
Qed.

(** C5: [session_init] always returns, and leaves [options.scene] null and
    in [options.session] a running session that holds the scene the driver
    held before.  Whatever the driver then runs, [options.scene] is null
    after every call, so between its calls the driver holds no scene pointer
    next to a running session, and a [session_exit] at that point does not
    take its scene-delete branch.  As long as the calls are [resize], [display],
    [keyboard] and [wait], the session still holds that scene and
    [session_exit] releases it by deleting the session. *)
Theorem scene_pointer_handed_over g :
  exists g1 s,
    session_init g = (session_init_events (options g), Return tt g1)
    /\ Options.scene (options g1) = None
    /\ Options.session (options g1) = Some s
    /\ Session.scene s = Options.scene (options g)
    /\ Session.running s = true
    /\ (forall cs g2,
          result (run_calls cs g1) = Return tt g2 ->
          Options.scene (options g2) = None
          /\ forall sc, ~ In (ESceneDelete sc) (events (session_exit g2)))
    /\ (forall cs g2,
          forallb session_only cs = true ->
          result (run_calls cs g1) = Return tt g2 ->
          exists s2 rest,
            Options.session (options g2) = Some s2
            /\ Session.scene s2 = Options.scene (options g)
            /\ events (session_exit g2) = ESessionDelete s2 :: rest
            /\ forall sc, ~ In (ESceneDelete sc) rest).
Proof.
  eexists. exists (started_session (options g)).
  split; [apply session_init_run|].
  cbn [options].
  split; [reflexivity|]. split; [reflexivity|].
  split; [apply started_session_scene|].
  split; [apply started_session_running|].
  split.
  - intros cs g2 H.
    assert (Hn : Options.scene (options g2) = None)
      by (eapply run_calls_scene_null; [exact H|reflexivity]).
    split; [exact Hn|]. intros sc. now apply session_exit_without_scene.
  - intros cs g2 Hcs H.
    destruct (session_only_calls_keep _ _ _ Hcs H) as [Hsc Hown].
    unfold owned_scene in Hown.
    cbn [options set_scene set_session Options.session Options.scene option_map]
      in Hsc, Hown.
    destruct (Options.session (options g2)) as [s2|] eqn:Es; [|discriminate].
    cbn [option_map] in Hown. injection Hown as Hown.
    change (Session.scene s2 = Session.scene (started_session (options g)))
      in Hown.
    rewrite started_session_scene in Hown.
    exists s2. eexists. split; [reflexivity|]. split; [exact Hown|].
    rewrite session_exit_events. unfold delete_events. rewrite Es, Hsc.
    cbn [set_scene set_session Options.scene app]. split; [reflexivity|].
    intros sc Hin. apply finish_events_print in Hin. discriminate.
Qed.

End Proofs.

(** ** The brightness/contrast node *)


Lemma select_max_at_zero y :
  OSL.select_max y OSL.zero = if OSL.ltb OSL.zero y then y else OSL.zero.
Proof. reflexivity. Qed.





(** ** The theorems at work on a concrete installation *)

Lemma unknown_device_is_fatal_witness :
  main (build := Demo.background_build) (dev := Demo.registry)
       (loader := Demo.loader) (view := Demo.window)
       Demo.bogus_device Demo.globals0
  = ([EPathInit; EStderr ("Unknown device: bogus" ++ LF)], Exit EXIT_FAILURE).
Proof.
  apply (unknown_device_is_fatal (build := Demo.background_build)
           (dev := Demo.registry) (loader := Demo.loader)
           Demo.bogus_device Demo.globals0).
  - vm_compute. discriminate.
  - reflexivity.
  - reflexivity.
  - vm_compute. discriminate.
  - left. reflexivity.
Defined.

(** C1 as stated fails on [cycles --device bogus --help scene.xml]: the
    device name resolves to the sentinel type, yet the process prints the
    usage text and ends with a success status. *)
Lemma unknown_device_with_help_succeeds :
  type_from_string (Device := Demo.registry)
    (c_str (devicename Demo.bogus_device_help)) = DEVICE_NONE
  /\ main (build := Demo.background_build) (dev := Demo.registry)
          (loader := Demo.loader) (view := Demo.window)
          Demo.bogus_device_help Demo.globals0
     = ([EPathInit; EUsage "Devices to use: cpu, cuda"], Exit EXIT_SUCCESS)
  /\ EXIT_SUCCESS <> EXIT_FAILURE.
Proof. repeat split; try reflexivity. discriminate. Qed.

Lemma missing_scene_path_witness :
  main (build := Demo.background_build) (dev := Demo.registry)
       (loader := Demo.loader) (view := Demo.window)
       Demo.list_devices Demo.globals0
  = ([EPathInit; EStdout ("Devices:" ++ LF);
      EStdout ("    Intel Core i7 (display)" ++ LF);
      EStdout ("    GeForce GTX 680" ++ LF)], Exit EXIT_SUCCESS).
Proof.
  exact (missing_scene_path_ends_in_options_parse
           (build := Demo.background_build) (dev := Demo.registry)
           (loader := Demo.loader) Demo.list_devices Demo.globals0 eq_refl).
Defined.

(** C2 as stated fails on [cycles] without arguments: the process ends with
    a success status after printing the usage text, whereas a negative
    sample count ends with a failure status. *)
Lemma missing_scene_path_exits_successfully :
  last_file (CommandLine.files Demo.no_arguments) "" = ""
  /\ main (build := Demo.background_build) (dev := Demo.registry)
          (loader := Demo.loader) (view := Demo.window)
          Demo.no_arguments Demo.globals0
     = ([EPathInit; EUsage "Devices to use: cpu, cuda"], Exit EXIT_SUCCESS)
  /\ main (build := Demo.background_build) (dev := Demo.registry)
          (loader := Demo.loader) (view := Demo.window)
          Demo.negative_samples Demo.globals0
     = ([EPathInit; EStderr ("Invalid number of samples: -1" ++ LF)],
        Exit EXIT_FAILURE)
  /\ EXIT_SUCCESS <> EXIT_FAILURE.
Proof. repeat split; try reflexivity. discriminate. Qed.

Lemma background_main_order_witness :
  exists g2,
    main (build := Demo.background_build) (dev := Demo.registry)
         (loader := Demo.loader) (view := Demo.window)
         Demo.render Demo.globals0
    = (EPathInit
       :: scene_init_events
            (configured (build := Demo.background_build)
               (dev := Demo.registry) Demo.render Demo.options0)
       ++ session_init_events (build := Demo.background_build)
            (options Demo.loaded)
       ++ [ESessionWait]
       ++ [ESessionDelete
             (Session.wait
                (started_session (build := Demo.background_build)
                   (options Demo.loaded)))]
       ++ finish_events (options Demo.loaded) (maxlen Demo.loaded),
       Return 0 g2)
    /\ Options.session (options g2) = None
    /\ Options.scene (options g2) = None.
Proof.
  apply (background_main_order (build := Demo.background_build)
           (dev := Demo.registry) (loader := Demo.loader)
           Demo.render Demo.globals0 Demo.loaded).
  - vm_compute. reflexivity.
  - left. reflexivity.
Defined.

Lemma scene_pointer_handed_over_witness :
  exists s2 rest,
    result (session_init (build := Demo.gui_build) Demo.loaded)
    = Return tt Demo.started
    /\ Options.scene (options Demo.started) = None
    /\ result (run_calls (build := Demo.gui_build) Demo.interaction
                 Demo.started) = Return tt Demo.interacted
    /\ Options.session (options Demo.interacted) = Some s2
    /\ Session.scene s2 = Options.scene (options Demo.loaded)
    /\ events (session_exit Demo.interacted) = ESessionDelete s2 :: rest
    /\ forall sc, ~ In (ESceneDelete sc) rest.
Proof.
  destruct (scene_pointer_handed_over (build := Demo.gui_build) Demo.loaded)
    as (g1 & s & Hinit & Hnull & _ & _ & _ & _ & Hkeep).
  assert (E : result (session_init (build := Demo.gui_build) Demo.loaded)
              = Return tt Demo.started) by (vm_compute; reflexivity).
  rewrite Hinit in E. unfold result in E. cbn [snd] in E.
  injection E as E. subst g1.
  assert (Hrun : result (run_calls (build := Demo.gui_build) Demo.interaction
                           Demo.started) = Return tt Demo.interacted)
    by (vm_compute; reflexivity).
  destruct (Hkeep Demo.interaction Demo.interacted eq_refl Hrun)
    as (s2 & rest & Hs & Hsc & Hev & Hno).
  exists s2, rest.
  split; [now rewrite Hinit|].
  split; [exact Hnull|].
  split; [exact Hrun|].
  split; [exact Hs|].
  split; [exact Hsc|].
  split; [exact Hev|exact Hno].
Defined.

(** C5 as stated fails inside [session_init]: when [options.session->start()]
    has returned (line 111) and [options.scene = NULL] (line 113) has not yet
    run, the session is running and holds the scene, and the driver still
    holds its own pointer to that scene. *)
Lemma scene_pointer_live_after_start :
  session_init (build := Demo.gui_build) Demo.loaded
  = bind (session_init_until_start (build := Demo.gui_build))
      (fun _ => modify (set_scene None)) Demo.loaded
  /\ result (session_init_until_start (build := Demo.gui_build) Demo.loaded)
     = Return tt Demo.starting
  /\ Options.scene (options Demo.starting)
     = Some (Scene.mk (SceneParams.mk SceneParams.SVM) Demo.cpu
               (Camera.mk 640 480))
  /\ exists s,
       Options.session (options Demo.starting) = Some s
       /\ Session.running s = true
       /\ Session.scene s = Options.scene (options Demo.starting).
Proof.
  split; [vm_compute; reflexivity|].
  split; [vm_compute; reflexivity|].
  split; [vm_compute; reflexivity|].
  exists (started_session (build := Demo.gui_build) (options Demo.loaded)).
  split; [vm_compute; reflexivity|].
  split; vm_compute; reflexivity.
Qed.

Lemma print_status_pulls_progress_witness :
  run_callback cb_session_print_status Demo.reporting
  = ([EGetSample; EGetTile; EGetStatus;
      EStdout (CR ++ "Sample 7   Path Tracing Tile 3/16: Sample 7/10");
      EFlush],
     Return tt (mkGlobals (options Demo.reporting) 46)).
Proof.
  exact (proj2 (print_status_pulls_progress (build := Demo.background_build))
           Demo.reporting Demo.rendering eq_refl).
Defined.

Lemma list_devices_witness :
  main (build := Demo.background_build) (dev := Demo.registry)
       (loader := Demo.loader) (view := Demo.window)
       Demo.osl_on_cuda_list Demo.globals0
  = ([EPathInit; EStdout ("Devices:" ++ LF);
      EStdout ("    Intel Core i7 (display)" ++ LF);
      EStdout ("    GeForce GTX 680" ++ LF)], Exit EXIT_SUCCESS).
Proof.
  refine (proj1 (list_devices_prints_and_succeeds
                   (build := Demo.background_build) (dev := Demo.registry)
                   (loader := Demo.loader) Demo.osl_on_cuda_list
                   Demo.globals0 _ eq_refl)).
  vm_compute. discriminate.
Defined.

Lemma osl_needs_cpu_device_witness :
  main (build := Demo.background_build) (dev := Demo.registry)
       (loader := Demo.loader) (view := Demo.window)
       Demo.osl_on_cuda Demo.globals0
  = ([EPathInit;
      EStderr ("OSL shading system only works with CPU device" ++ LF)],
     Exit EXIT_FAILURE).
Proof.
  refine (proj1 (osl_needs_cpu_device (build := Demo.background_build)
                   (dev := Demo.registry) (loader := Demo.loader))
                Demo.osl_on_cuda Demo.globals0 eq_refl _ eq_refl eq_refl _
                eq_refl _).
  - vm_compute. discriminate.
  - vm_compute. discriminate.
  - vm_compute. discriminate.
Defined.

(** C9 as stated fails on
    [cycles --shadingsys osl --device cuda --list-devices scene.xml]: OSL is
    selected together with a CUDA device, yet the process lists the devices
    and ends with a success status. *)
Lemma osl_on_cuda_with_list_succeeds :
  WITH_OSL (Build := Demo.background_build) = true
  /\ CommandLine.shadingsys Demo.osl_on_cuda_list = Some "osl"
  /\ type_from_string (Device := Demo.registry)
       (c_str (devicename Demo.osl_on_cuda_list)) = DEVICE_CUDA
  /\ result (main (build := Demo.background_build) (dev := Demo.registry)
               (loader := Demo.loader) (view := Demo.window)
               Demo.osl_on_cuda_list Demo.globals0)
     = Exit EXIT_SUCCESS
  /\ EXIT_SUCCESS <> EXIT_FAILURE.
Proof. repeat split; try reflexivity. discriminate. Qed.

(** ** Further properties of the driver *)

Section More.
Context {build : Build} {dev : Device} {loader : SceneLoader} {view : View}.

Ltac split_ifs :=
  repeat match goal with
         | |- context [if ?b then _ else _] => destruct b
         end.

(** *** The fields of [options] when the checks are made *)

Lemma session_configured cl o : Options.session (configured cl o) = None.
Proof. unfold configured, moded, shaded. split_ifs; reflexivity. Qed.

Lemma scene_configured cl o :
  Options.scene (configured cl o) = Options.scene o.
Proof. unfold configured, moded, shaded. split_ifs; reflexivity. Qed.

Lemma width_configured cl o :
  Options.width (configured cl o) = store (CommandLine.width cl) 0.
Proof. unfold configured, moded, shaded. split_ifs; reflexivity. Qed.

Lemma height_configured cl o :
  Options.height (configured cl o) = store (CommandLine.height cl) 0.
Proof. unfold configured, moded, shaded. split_ifs; reflexivity. Qed.

Lemma quiet_configured cl o :
  Options.quiet (configured cl o) = CommandLine.quiet cl.
Proof.
  unfold configured, moded, shaded.
  destruct (CommandLine.quiet cl) eqn:E; split_ifs; cbn; now rewrite ?E.
Qed.

Lemma samples_configured cl o :
  SessionParams.samples (Options.session_params (configured cl o))
  = store (CommandLine.samples cl)
      (SessionParams.samples (Options.session_params o)).
Proof. unfold configured, moded, shaded. split_ifs; reflexivity. Qed.

Lemma session_params_shaded ss o :
  Options.session_params (shaded ss o) = Options.session_params o.
Proof. unfold shaded. split_ifs; reflexivity. Qed.

Lemma background_entered cl o :
  SessionParams.background (Options.session_params (entered cl o))
  = CommandLine.background cl
    || SessionParams.background (Options.session_params o).
Proof. cbn. now destruct (CommandLine.background cl). Qed.

Lemma background_configured cl o :
  SessionParams.background (Options.session_params (configured cl o))
  = if WITH_CYCLES_STANDALONE_GUI
    then CommandLine.background cl
         || SessionParams.background (Options.session_params o)
    else true.
Proof.
  rewrite <- background_entered.
  rewrite <- (session_params_shaded (ssname cl) (entered cl o)).
  unfold configured, moded.
  destruct WITH_CYCLES_STANDALONE_GUI; [|reflexivity].
  destruct (SessionParams.background
              (Options.session_params (shaded (ssname cl) (entered cl o))))
    eqn:E; cbn; now rewrite ?E.
Qed.

Lemma progressive_configured cl o :
  WITH_CYCLES_STANDALONE_GUI = true ->
  SessionParams.background (Options.session_params (configured cl o)) = false ->
  SessionParams.progressive (Options.session_params (configured cl o)) = true.
Proof.
  intros HG. rewrite background_configured, HG, <- background_entered.
  rewrite <- (session_params_shaded (ssname cl) (entered cl o)).
  intros Hb. unfold configured, moded. rewrite HG, Hb. reflexivity.
Qed.

Lemma after_scene_init_session_params w h o :
  Options.session_params (after_scene_init w h o) = Options.session_params o.
Proof. unfold after_scene_init. split_ifs; reflexivity. Qed.

Lemma after_scene_init_scene_params w h o :
  Options.scene_params (after_scene_init w h o) = Options.scene_params o.
Proof. unfold after_scene_init. split_ifs; reflexivity. Qed.

Lemma after_scene_init_session w h o :
  Options.session (after_scene_init w h o) = Options.session o.
Proof. unfold after_scene_init. split_ifs; reflexivity. Qed.

Lemma after_scene_init_scene w h o :
  Options.scene (after_scene_init w h o) = Some (loaded_scene o).
Proof. unfold after_scene_init. split_ifs; reflexivity. Qed.

Lemma after_scene_init_quiet w h o :
  Options.quiet (after_scene_init w h o) = Options.quiet o.
Proof. unfold after_scene_init. split_ifs; reflexivity. Qed.

Lemma after_scene_init_filepath w h o :
  Options.filepath (after_scene_init w h o) = Options.filepath o.
Proof. unfold after_scene_init. split_ifs; reflexivity. Qed.

(** The state in which [options_parse] returns. *)
Lemma options_parse_final cl g g1 :
  result (options_parse cl g) = Return tt g1 ->
  let o := configured cl (options g) in
  g1 = mkGlobals (after_scene_init (Options.width o) (Options.height o) o)
         (maxlen g)
  /\ events (options_parse cl g) = scene_init_events o.
Proof.
  intros Hret. cbv zeta.
  destruct (options_parse_returns _ _ _ Hret) as [Hrun _].
  rewrite Hrun in Hret |- *. unfold result, events in *. cbn [fst snd] in *.
  injection Hret as <-. split; reflexivity.
Qed.

Lemma find_device_first ty devs cur d :
  find_device ty devs cur = (d, true) -> first_of_type ty devs d.
Proof.
  induction devs as [|x rest IH]; cbn [find_device]; [discriminate|].
  destruct (DeviceType_eqb ty (DeviceInfo.type x)) eqn:E.
  - intros [= <-]. apply DeviceType_eqb_eq in E.
    exists [], rest. repeat split; auto.
  - intros H. destruct (IH H) as (before & after & -> & Ht & Hb).
    exists (x :: before), after. repeat split; auto.
    intros y [<-|Hy]; [|auto].
    intros Hx. rewrite Hx in E.
    assert (DeviceType_eqb ty ty = true) by now apply DeviceType_eqb_eq.
    congruence.
Qed.

Lemma device_unknown_false_iff cl o :
  device_unknown cl o = false ->
  let ty := type_from_string (c_str (devicename cl)) in
  ty <> DEVICE_NONE
  /\ first_of_type ty available_devices
       (SessionParams.device (Options.session_params (configured cl o))).
Proof.
  cbv zeta. intros Hu.
  pose proof (device_unknown_false _ _ Hu) as Hty.
  unfold device_unknown in Hu. apply orb_false_elim in Hu.
  destruct Hu as [Hnone Hav]. apply negb_false_iff in Hav.
  rewrite device_configured in *. unfold matched in *.
  destruct (find_device _ _ _) as [d av] eqn:F. cbn [fst snd] in *. subst av.
  split.
  - intros Hn. rewrite <- Hty in Hn. rewrite Hn in Hnone. discriminate.
  - eapply find_device_first; eauto.
Qed.

Lemma device_known cl o :
  type_from_string (c_str (devicename cl)) <> DEVICE_NONE ->
  (exists d, In d available_devices
             /\ DeviceInfo.type d = type_from_string (c_str (devicename cl))) ->
  device_unknown cl o = false.
Proof.
  intros Hn [d [Hin Ht]]. unfold device_unknown.
  rewrite device_configured. unfold matched.
  destruct (find_device _ _ _) as [d' av] eqn:F. cbn [fst snd].
  destruct av.
  - apply find_device_found in F. destruct F as [Ht' _]. rewrite Ht'.
    destruct (DeviceType_eqb _ DEVICE_NONE) eqn:E; [|reflexivity].
    apply DeviceType_eqb_eq in E. contradiction.
  - exfalso. revert F. generalize (SessionParams.device
      (Options.session_params (moded (shaded (ssname cl) (entered cl o))))).
    induction available_devices as [|x rest IH]; [destruct Hin|].
    intros cur. cbn [find_device].
    destruct (DeviceType_eqb _ (DeviceInfo.type x)) eqn:E; [discriminate|].
    destruct Hin as [<-|Hin]; [|now apply IH].
    rewrite Ht in E.
    assert (DeviceType_eqb (type_from_string (c_str (devicename cl)))
              (type_from_string (c_str (devicename cl))) = true)
      by now apply DeviceType_eqb_eq.
    congruence.
Qed.

(** X1: a command line that [ArgParse] rejects ends the process with the
    error text on stderr, the usage text and a failure status, whatever else
    it asks for. *)
Theorem parse_error_is_fatal cl g :
  CommandLine.parse cl < 0 ->
  main cl g =
    ([EPathInit; EStderr (c_str (CommandLine.geterror cl) ++ LF); usage_event],
     Exit EXIT_FAILURE).
Proof.
  intros Hrc. apply main_leaves. rewrite options_parse_cases. cbv zeta.
  destruct (Z.ltb_spec (CommandLine.parse cl) 0); [reflexivity|lia].
Qed.

(** X2: when the arguments parse, [--help] without [--list-devices] makes
    the process print the usage text and exit with a success status; the
    device, the shading system, the sample count and the scene file are not
    looked at. *)
Theorem help_prints_usage cl g :
  0 <= CommandLine.parse cl ->
  CommandLine.list_devices cl = false ->
  CommandLine.help cl = true ->
  main cl g = ([EPathInit; usage_event], Exit EXIT_SUCCESS).
Proof.
  intros Hrc Hl Hh. apply main_leaves. rewrite options_parse_cases. cbv zeta.
  destruct (Z.ltb_spec (CommandLine.parse cl) 0); [lia|].
  now rewrite Hl, Hh.
Qed.

(** X3: with the arguments parsed, no [--list-devices] or [--help], a scene
    file, an available device and the SVM shading system, a negative sample
    count [n] makes the process print [Invalid number of samples: n] on
    stderr and exit with a failure status, before any scene is loaded. *)
Theorem negative_samples_is_fatal cl g n :
  0 <= CommandLine.parse cl ->
  CommandLine.list_devices cl = false ->
  CommandLine.help cl = false ->
  last_file (CommandLine.files cl) "" <> "" ->
  type_from_string (c_str (devicename cl)) <> DEVICE_NONE ->
  (exists d, In d available_devices
             /\ DeviceInfo.type d = type_from_string (c_str (devicename cl))) ->
  ssname cl = "svm" ->
  store (CommandLine.samples cl)
    (SessionParams.samples (Options.session_params (options g))) = n ->
  n < 0 ->
  main cl g =
    ([EPathInit; EStderr ("Invalid number of samples: " ++ dec n ++ LF)],
     Exit EXIT_FAILURE).
Proof.
  intros Hrc Hl Hh Hf Hn Hd Hs Hsamples Hneg.
  apply main_leaves. rewrite options_parse_cases. cbv zeta.
  destruct (Z.ltb_spec (CommandLine.parse cl) 0); [lia|].
  rewrite Hl, Hh. cbn [orb].
  destruct (String.eqb_spec (last_file (CommandLine.files cl) "") "");
    [contradiction|].
  rewrite (device_known _ _ Hn Hd).
  rewrite Hs. cbn [String.eqb Ascii.eqb Bool.eqb orb negb].
  rewrite andb_false_r.
  assert (Hsel : osl_selected (configured cl (options g)) = false).
  { unfold osl_selected. rewrite scene_params_configured, Hs. reflexivity. }
  rewrite Hsel, andb_false_r. cbn [andb].
  rewrite samples_configured, Hsamples.
  destruct (Z.ltb_spec n 0); [reflexivity|lia].
Qed.

(** X4: in a build with OSL, with the arguments parsed, no [--list-devices]
    or [--help], a scene file and an available device, a shading system name
    other than [osl] and [svm] makes the process print
    [Unknown shading system: <name>] on stderr and exit with a failure
    status. *)
Theorem unknown_shading_system_is_fatal cl g ss :
  WITH_OSL = true ->
  0 <= CommandLine.parse cl ->
  CommandLine.list_devices cl = false ->
  CommandLine.help cl = false ->
  last_file (CommandLine.files cl) "" <> "" ->
  type_from_string (c_str (devicename cl)) <> DEVICE_NONE ->
  (exists d, In d available_devices
             /\ DeviceInfo.type d = type_from_string (c_str (devicename cl))) ->
  CommandLine.shadingsys cl = Some ss ->
  ss <> "osl" -> ss <> "svm" ->
  main cl g =
    ([EPathInit; EStderr ("Unknown shading system: " ++ c_str ss ++ LF)],
     Exit EXIT_FAILURE).
Proof.
  intros Hosl Hrc Hl Hh Hf Hn Hd Hs H1 H2.
  assert (Ess : ssname cl = ss) by (unfold ssname; now rewrite Hosl, Hs).
  apply main_leaves. rewrite options_parse_cases. cbv zeta.
  destruct (Z.ltb_spec (CommandLine.parse cl) 0); [lia|].
  rewrite Hl, Hh. cbn [orb].
  destruct (String.eqb_spec (last_file (CommandLine.files cl) "") "");
    [contradiction|].
  rewrite (device_known _ _ Hn Hd), Ess, Hosl.
  destruct (String.eqb_spec ss "osl"); [contradiction|].
  destruct (String.eqb_spec ss "svm"); [contradiction|].
  reflexivity.
Qed.

(** *** What holds whenever options_parse returns *)

(** X5: whenever [options_parse] returns, there is no session yet, the file
    path is the last one named and is not empty, the scene has been loaded
    from it, the sample count is not negative, and the only calls made were
    the construction of the scene and the loading of the file. *)
Theorem options_parse_returns_valid cl g g1 :
  result (options_parse cl g) = Return tt g1 ->
  let o := options g1 in
  Options.session o = None
  /\ Options.filepath o = last_file (CommandLine.files cl) ""
  /\ Options.filepath o <> ""
  /\ Options.scene o = Some (loaded_scene (configured cl (options g)))
  /\ 0 <= SessionParams.samples (Options.session_params o)
  /\ events (options_parse cl g)
     = [ESceneNew (Options.scene_params o)
                  (SessionParams.device (Options.session_params o));
        EXmlReadFile (c_str (Options.filepath o))].
Proof.
  intros Hret. cbv zeta.
  destruct (options_parse_returns _ _ _ Hret)
    as (_ & _ & _ & Hf & _ & _ & Hs).
  destruct (options_parse_final _ _ _ Hret) as [-> Hev].
  cbn [options].
  rewrite after_scene_init_session, after_scene_init_filepath,
    after_scene_init_scene, after_scene_init_session_params,
    after_scene_init_scene_params.
  rewrite session_configured, filepath_configured.
  repeat split; auto.
  rewrite Hev. unfold scene_init_events. now rewrite filepath_configured.
Qed.

(** X6: whenever [options_parse] returns, the device name resolved to a
    type other than the sentinel, and the device of the session parameters
    is the first of the available devices that has this type. *)
Theorem options_parse_selects_first_device cl g g1 :
  result (options_parse cl g) = Return tt g1 ->
  let ty := type_from_string (c_str (devicename cl)) in
  ty <> DEVICE_NONE
  /\ first_of_type ty available_devices
       (SessionParams.device (Options.session_params (options g1))).
Proof.
  intros Hret. cbv zeta.
  destruct (options_parse_returns _ _ _ Hret)
    as (_ & _ & _ & _ & Hu & _).
  destruct (options_parse_final _ _ _ Hret) as [-> _].
  cbn [options]. rewrite after_scene_init_session_params.
  now apply device_unknown_false_iff.
Qed.

(** X7: whenever [options_parse] returns, a build without GUI has forced
    the background flag, and a session that is not in background mode is
    progressive. *)
Theorem interactive_session_is_progressive cl g g1 :
  result (options_parse cl g) = Return tt g1 ->
  let p := Options.session_params (options g1) in
  (WITH_CYCLES_STANDALONE_GUI = false -> SessionParams.background p = true)
  /\ (SessionParams.background p = false -> SessionParams.progressive p = true).
Proof.
  intros Hret. cbv zeta.
  destruct (options_parse_final _ _ _ Hret) as [-> _].
  cbn [options]. rewrite after_scene_init_session_params.
  split.
  - intros HG. now rewrite background_configured, HG.
  - intros Hb. apply progressive_configured; [|exact Hb].
    rewrite background_configured in Hb.
    destruct WITH_CYCLES_STANDALONE_GUI; [reflexivity|discriminate].
Qed.

(** X8: in a build without OSL the shading system is SVM whenever
    [options_parse] returns. *)
Theorem build_without_osl_uses_svm cl g g1 :
  WITH_OSL = false ->
  result (options_parse cl g) = Return tt g1 ->
  SceneParams.shadingsystem (Options.scene_params (options g1))
  = SceneParams.SVM.
Proof.
  intros Hosl Hret.
  destruct (options_parse_final _ _ _ Hret) as [-> _].
  cbn [options]. rewrite after_scene_init_scene_params.
  rewrite scene_params_configured. unfold ssname. rewrite Hosl. reflexivity.
Qed.

(** X9: when [--width] and [--height] are both given and neither is 0, a
    run of [options_parse] that returns keeps them, whatever the camera of
    the scene declares. *)
Theorem explicit_dimensions_are_kept cl g g1 w h :
  CommandLine.width cl = Some w ->
  CommandLine.height cl = Some h ->
  w <> 0 -> h <> 0 ->
  result (options_parse cl g) = Return tt g1 ->
  Options.width (options g1) = w /\ Options.height (options g1) = h.
Proof.
  intros Hw Hh Hw0 Hh0 Hret.
  destruct (options_parse_final _ _ _ Hret) as [-> _].
  cbn [options]. rewrite width_configured, height_configured, Hw, Hh.
  cbn [store]. unfold after_scene_init.
  destruct (Z.eqb_spec w 0); [contradiction|].
  destruct (Z.eqb_spec h 0); [contradiction|].
  cbn [orb set_scene Options.width Options.height].
  now rewrite width_configured, height_configured, Hw, Hh.
Qed.

(** X10: when the width or the height is missing (or 0), a run of
    [options_parse] that returns takes both dimensions from the camera of
    the scene: a width or height given alone is discarded. *)
Theorem one_missing_dimension_discards_both cl g g1 :
  store (CommandLine.width cl) 0 = 0 \/ store (CommandLine.height cl) 0 = 0 ->
  result (options_parse cl g) = Return tt g1 ->
  exists sc,
    Options.scene (options g1) = Some sc
    /\ Options.width (options g1) = Camera.width (Scene.camera sc)
    /\ Options.height (options g1) = Camera.height (Scene.camera sc).
Proof.
  intros Hz Hret.
  destruct (options_parse_final _ _ _ Hret) as [-> _].
  cbn [options]. rewrite width_configured, height_configured.
  exists (loaded_scene (configured cl (options g))).
  unfold after_scene_init.
  assert (E : (store (CommandLine.width cl) 0 =? 0)
              || (store (CommandLine.height cl) 0 =? 0) = true).
  { destruct Hz as [-> | ->]; cbn; [reflexivity|apply orb_true_r]. }
  rewrite E. repeat split; reflexivity.
Qed.

(** *** main after options_parse *)

Lemma main_after_options_parse cl g g1 :
  result (options_parse cl g) = Return tt g1 ->
  main cl g =
  prepend (EPathInit :: scene_init_events (configured cl (options g)))
    (bind
       (if negb WITH_CYCLES_STANDALONE_GUI
           || SessionParams.background (Options.session_params (options g1))
        then session_init ;; session_wait ;; session_exit
        else emit (EViewMainLoop (window_title (options g1))
                     (Options.width (options g1))
                     (Options.height (options g1))) ;;
             run_calls (loop_calls (options g1)))
       (fun _ => ret 0) g1).
Proof.
  intros Hret.
  destruct (options_parse_returns _ _ _ Hret) as [Hrun _].
  assert (Hg1 : options_parse cl g
                = (scene_init_events (configured cl (options g)),
                   Return tt g1)).
  { rewrite Hrun in Hret |- *. cbn in Hret. now injection Hret as <-. }
  unfold main. drive. erewrite bind_emitting by exact Hg1. drive.
  reflexivity.
Qed.

Lemma background_run g :
  exists m',
    (session_init ;; session_wait ;; session_exit) g =
    (session_init_events (options g)
     ++ [ESessionWait;
         ESessionDelete (Session.wait (started_session (options g)))]
     ++ finish_events (options g) (maxlen g),
     Return tt (mkGlobals (set_scene None (set_session None (options g))) m')).
Proof.
  erewrite bind_emitting by apply session_init_run.
  erewrite bind_emitting by (apply session_wait_run; reflexivity).
  match goal with |- context [session_exit ?g] =>
    destruct (session_exit_run g) as [m' E] end.
  exists m'. rewrite E. drive.
  unfold delete_events, finish_events.
  cbn [options maxlen set_session set_scene Options.session Options.scene
       Options.filepath Options.width Options.height Options.scene_params
       Options.session_params Options.quiet Options.show_help].
  rewrite <- !app_assoc. destruct (options g). reflexivity.
Qed.

Lemma append_assoc (a b c : string) :
  ((a ++ b) ++ c = a ++ (b ++ c))%string.
Proof. induction a as [|x a IH]; cbn; [reflexivity|now rewrite IH]. Qed.

Lemma append_empty_r (a : string) : (a ++ "")%string = a.
Proof. induction a as [|x a IH]; cbn; [reflexivity|now rewrite IH]. Qed.

Lemma length_append (a b : string) :
  String.length (a ++ b) = (String.length a + String.length b)%nat.
Proof. induction a as [|x a IH]; cbn; [reflexivity|now rewrite IH]. Qed.

Lemma stdout_text_app es1 es2 :
  stdout_text (es1 ++ es2) = (stdout_text es1 ++ stdout_text es2)%string.
Proof.
  induction es1 as [|e es1 IH]; [reflexivity|].
  destruct e; cbn [app stdout_text]; auto.
  rewrite IH. now rewrite append_assoc.
Qed.

Lemma quiet_returned cl g g1 :
  result (options_parse cl g) = Return tt g1 ->
  Options.quiet (options g1) = CommandLine.quiet cl.
Proof.
  intros Hret. destruct (options_parse_final _ _ _ Hret) as [-> _].
  cbn [options]. now rewrite after_scene_init_quiet, quiet_configured.
Qed.

(** X11: with [--quiet], a background run that gets past [options_parse]
    writes nothing to stdout and does not bind [session_print_status] as
    update callback. *)
Theorem quiet_background_run_is_silent cl g g1 :
  CommandLine.quiet cl = true ->
  result (options_parse cl g) = Return tt g1 ->
  WITH_CYCLES_STANDALONE_GUI = false
  \/ SessionParams.background (Options.session_params (options g1)) = true ->
  stdout_text (events (main cl g)) = ""
  /\ ~ In (ESetUpdateCallback cb_session_print_status) (events (main cl g)).
Proof.
  intros Hq Hret Hbg.
  pose proof (quiet_returned _ _ _ Hret) as Hq1. rewrite Hq in Hq1.
  rewrite (main_after_options_parse _ _ _ Hret).
  assert (Hc : negb WITH_CYCLES_STANDALONE_GUI
               || SessionParams.background
                    (Options.session_params (options g1)) = true).
  { destruct Hbg as [-> | ->]; [reflexivity|apply orb_true_r]. }
  rewrite Hc. destruct (background_run g1) as [m' E].
  erewrite bind_emitting by exact E. drive.
  unfold events. cbn [fst].
  unfold finish_events, session_init_events, registered, scene_init_events.
  rewrite Hq1, andb_false_r.
  split.
  - rewrite !stdout_text_app.
    destruct WITH_CYCLES_STANDALONE_GUI; reflexivity.
  - intros H. repeat (apply in_app_or in H; destruct H as [H|H]);
      cbn [In callback_events] in H;
      try (destruct WITH_CYCLES_STANDALONE_GUI; cbn [In callback_events] in H);
      repeat (destruct H as [H|H]; try discriminate H); auto.
Qed.



(** *** session_print *)

Lemma stdout_text_repeat_blank n :
  String.length (stdout_text (repeat (EStdout " ") n)) = n.
Proof. induction n as [|n IH]; cbn; [reflexivity|now rewrite IH]. Qed.

(** X14: for a string without NUL, [session_print] writes a carriage return
    followed by exactly as many characters as the longest line printed so
    far, the new one included, so a line always covers the ones before it;
    [options] is left as it was. *)
Theorem session_print_width str g :
  c_str str = str ->
  exists g',
    result (session_print str g) = Return tt g'
    /\ options g' = options g
    /\ maxlen g' = Z.max (Z.of_nat (String.length str)) (maxlen g)
    /\ Z.of_nat (String.length (stdout_text (events (session_print str g))))
       = 1 + maxlen g'.
Proof.
  intros Hc. rewrite session_print_run. eexists. split; [reflexivity|].
  cbn [options maxlen events fst]. repeat split.
  cbn [stdout_text]. rewrite stdout_text_app. cbn [stdout_text].
  rewrite Hc, append_empty_r. unfold CR. cbn [String.append String.length].
  rewrite length_append. unfold padding. rewrite stdout_text_repeat_blank.
  lia.
Qed.

(** *** files_parse and the device names *)

Lemma last_file_app calls1 calls2 cur :
  last_file (calls1 ++ calls2) cur = last_file calls2 (last_file calls1 cur).
Proof.
  revert cur; induction calls1 as [|argv rest IH]; intros cur;
    [reflexivity|]. cbn [app last_file]. apply IH.
Qed.

(** X15: a call of [files_parse] with an empty argument vector changes
    nothing; after any calls that end with a call with arguments, the file
    path is the first argument of that last call and nothing else of the
    driver state has changed. *)
Theorem last_file_argument_wins calls a rest g :
  files_parse [] g = ([], Return 0 g)
  /\ sublist_calls (calls ++ [a :: rest]) g =
     ([], Return tt (mkGlobals (set_filepath a (options g)) (maxlen g))).
Proof.
  split.
  - unfold files_parse. drive. reflexivity.
  - rewrite sublist_calls_run, last_file_app. reflexivity.
Qed.

Lemma append_not_empty (a b : string) : b <> "" -> (a ++ b)%string <> "".
Proof. destruct a; cbn; [auto|discriminate]. Qed.

Lemma join_device_names_from types acc :
  acc <> "" ->
  (forall t, In t types -> string_from_type t <> "") ->
  join_device_names types acc =
  match types with
  | [] => acc
  | _ => (acc ++ ", " ++ String.concat ", " (map string_from_type types))%string
  end.
Proof.
  revert acc; induction types as [|t rest IH]; intros acc Hacc Hnames;
    [reflexivity|].
  cbn [join_device_names].
  destruct (String.eqb_spec acc ""); [contradiction|].
  rewrite IH.
  - destruct rest as [|t' rest]; cbn [map String.concat].
    + now rewrite append_assoc.
    + now rewrite !append_assoc.
  - apply append_not_empty. apply Hnames. now left.
  - intros x Hx. apply Hnames. now right.
Qed.

(** X16: when no available device type has an empty name, the device names
    of the usage text are the names of the available types joined by a comma
    and a blank. *)
Theorem device_names_are_comma_separated :
  (forall t, In t available_types -> string_from_type t <> "") ->
  join_device_names available_types ""
  = String.concat ", " (map string_from_type available_types).
Proof.
  intros Hnames. destruct available_types as [|t rest]; [reflexivity|].
  cbn [join_device_names String.eqb]. change ("" ++ ?x)%string with x.
  rewrite join_device_names_from.
  - destruct rest; reflexivity.
  - apply Hnames. now left.
  - intros x Hx. apply Hnames. now right.
Qed.

(** *** session_init, session_exit and the callbacks of the view *)

(** X17: [session_init] binds [session_print_status] exactly when the
    session runs in background mode and is not quiet, and binds
    [view_redraw] exactly when that is not the case and the build has the
    GUI. *)
Theorem update_callback_by_mode g :
  let o := options g in
  let print := SessionParams.background (Options.session_params o)
               && negb (Options.quiet o) in
  (In (ESetUpdateCallback cb_session_print_status) (events (session_init g))
   <-> print = true)
  /\ (In (ESetUpdateCallback cb_view_redraw) (events (session_init g))
      <-> print = false /\ WITH_CYCLES_STANDALONE_GUI = true).
Proof.
  cbv zeta. rewrite session_init_run. unfold events. cbn [fst].
  unfold session_init_events, registered.
  destruct (SessionParams.background (Options.session_params (options g))
            && negb (Options.quiet (options g)));
    [|destruct WITH_CYCLES_STANDALONE_GUI]; cbn [callback_events app In];
    split; split;
    try (intros [H|[H|[H|[H|[H|H]]]]]; try discriminate H; try destruct H);
    try (intros [H|[H|[H|[H|H]]]]; try discriminate H; try destruct H);
    try (intros [H1 H2]; discriminate);
    try discriminate; auto 10.
Qed.

(** X18: [session_exit] always returns and leaves neither a session nor a
    scene in [options]; a second [session_exit] deletes nothing and only
    repeats the closing message. *)
Theorem session_exit_twice_deletes_once g :
  exists g1 g2,
    result (session_exit g) = Return tt g1
    /\ Options.session (options g1) = None
    /\ Options.scene (options g1) = None
    /\ session_exit g1 = (finish_events (options g1) (maxlen g1), Return tt g2)
    /\ forallb (fun e => negb (is_delete e)) (events (session_exit g1)) = true.
Proof.
  destruct (session_exit_run g) as [m1 E1].
  eexists. 
  match type of E1 with _ = (_, Return tt ?g1) =>
    destruct (session_exit_run g1) as [m2 E2] end.
  eexists. split; [now rewrite E1|].
  cbn [options maxlen] in *.
  split; [reflexivity|]. split; [reflexivity|].
  unfold delete_events in E2. cbn [set_scene set_session Options.session
    Options.scene app] in E2.
  split.
  - rewrite E2. reflexivity.
  - rewrite E2. unfold events. cbn [fst]. apply forallb_forall.
    intros e He. apply finish_events_print in He.
    destruct e; try reflexivity; discriminate.
Qed.

(** X19: when [session_exit] runs right after [options_parse], without a
    [session_init], it deletes the loaded scene itself and no session. *)
Theorem session_exit_before_session_init cl g g1 :
  result (options_parse cl g) = Return tt g1 ->
  exists sc,
    Options.scene (options g1) = Some sc
    /\ events (session_exit g1)
       = ESceneDelete sc :: finish_events (options g1) (maxlen g1).
Proof.
  intros Hret.
  destruct (options_parse_final _ _ _ Hret) as [-> _].
  rewrite session_exit_events. cbn [options maxlen]. unfold delete_events.
  rewrite after_scene_init_session, after_scene_init_scene, session_configured.
  eexists. split; reflexivity.
Qed.

Ltac run_state :=
  repeat (progress
    (drive;
     cbn [options maxlen set_session set_scene set_width set_height
          set_show_help Options.session Options.scene
          Options.filepath Options.width Options.height Options.scene_params
          Options.session_params Options.quiet Options.show_help
          result events fst snd])).

(** X20: without a session, [resize] makes no call and returns; the
    [session_init] that follows resets the new session to the resized width
    and height, as the full frame, with the configured sample count. *)
Theorem resize_before_session_init_is_kept width height g :
  Options.session (options g) = None ->
  exists g1,
    resize width height g = ([], Return tt g1)
    /\ Options.session (options g1) = None
    /\ events (session_init g1)
       = [ESessionNew (Options.session_params (options g));
          ESessionReset (BufferParams.mk width height width height)
            (SessionParams.samples (Options.session_params (options g)));
          ESessionSetScene (Options.scene (options g))]
         ++ callback_events (registered (options g)) ++ [ESessionStart].
Proof.
  destruct g as [[se sc fp w h scp sp q sh] m]. cbn [options Options.session].
  intros ->. unfold resize. run_state. eexists. split; [reflexivity|].
  split; [reflexivity|]. rewrite session_init_run. reflexivity.
Qed.

(** A key other than r, h and escape changes nothing and makes no
    call, with or without a session. *)
Theorem other_keys_are_ignored key g :
  key <> "r"%char -> key <> "h"%char -> key <> "027"%char ->
  keyboard key g = ([], Return tt g).
Proof.
  intros Hr Hh He. unfold keyboard.
  destruct (Ascii.eqb_spec key "r"); [contradiction|].
  destruct (Ascii.eqb_spec key "h"); [contradiction|].
  destruct (Ascii.eqb_spec key "027"); [contradiction|].
  reflexivity.
Qed.

(** X21: the h key makes no call and needs no session; it flips
    [show_help], and pressing it twice gives back the state before. *)
Theorem help_key_toggles g :
  exists g1,
    keyboard "h" g = ([], Return tt g1)
    /\ Options.show_help (options g1) = negb (Options.show_help (options g))
    /\ Options.session (options g1) = Options.session (options g)
    /\ keyboard "h" g1 = ([], Return tt g).
Proof.
  destruct g as [[se sc fp w h scp sp q sh] m].
  unfold keyboard. cbn [Ascii.eqb Bool.eqb andb]. run_state.
  eexists. split; [reflexivity|]. run_state.
  split; [reflexivity|]. split; [reflexivity|].
  now rewrite negb_involutive.
Qed.

(** X22: while [options.session] is null, [display], the r key, the escape
    key and [session_print_status] dereference the null pointer before they
    make any call, whereas [resize] and [session_exit] return, and
    [session_exit] deletes no session. *)
Theorem calls_without_session g :
  Options.session (options g) = None ->
  display g = ([], NullDeref)
  /\ keyboard "r" g = ([], NullDeref)
  /\ keyboard "027" g = ([], NullDeref)
  /\ session_print_status g = ([], NullDeref)
  /\ (forall width height,
        exists g', resize width height g = ([], Return tt g'))
  /\ (exists g', result (session_exit g) = Return tt g'
                 /\ forall s, ~ In (ESessionDelete s) (events (session_exit g))).
Proof.
  destruct g as [[se sc fp w h scp sp q sh] m]. cbn [options Options.session].
  intros ->.
  split; [|split; [|split; [|split; [|split]]]].
  - unfold display, session_buffer_params, session_call, deref_session.
    run_state. reflexivity.
  - unfold keyboard, session_reset, session_buffer_params, session_call,
      deref_session. cbn [Ascii.eqb Bool.eqb andb]. run_state. reflexivity.
  - unfold keyboard, session_call, deref_session.
    cbn [Ascii.eqb Bool.eqb andb]. run_state. reflexivity.
  - unfold session_print_status, deref_session. run_state. reflexivity.
  - intros width height. unfold resize. run_state. eexists. reflexivity.
  - match goal with |- context [session_exit ?g] =>
      destruct (session_exit_run g) as [m' E] end.
    rewrite E. eexists. split; [reflexivity|].
    intros s H. unfold events in H. cbn [fst options maxlen] in H.
    apply in_app_or in H. destruct H as [H|H].
    + unfold delete_events in H. cbn [Options.session Options.scene app] in H.
      destruct sc; [destruct H as [H|[]]; discriminate H|destruct H].
    + apply finish_events_print in H. discriminate H.
Qed.

(** *** The frame display draws *)

Lemma current_frame_app cur es1 es2 :
  current_frame cur (es1 ++ es2) = current_frame (current_frame cur es1) es2.
Proof.
  revert cur; induction es1 as [|e es1 IH]; intros cur; [reflexivity|].
  destruct e; cbn [app current_frame]; apply IH.
Qed.

Lemma draws_current_app cur es1 es2 :
  draws_current cur (es1 ++ es2)
  <-> draws_current cur es1 /\ draws_current (current_frame cur es1) es2.
Proof.
  revert cur; induction es1 as [|e es1 IH]; intros cur.
  - cbn. tauto.
  - destruct e; cbn [app draws_current current_frame]; rewrite ?IH; tauto.
Qed.

Lemma neutral_events_keep_frame cur es :
  (forall e, In e es -> frame_neutral e = true) ->
  draws_current cur es /\ current_frame cur es = cur.
Proof.
  induction es as [|e es IH]; intros H; [split; reflexivity|].
  assert (He : frame_neutral e = true) by (apply H; now left).
  assert (Hes : forall x, In x es -> frame_neutral x = true)
    by (intros x Hx; apply H; now right).
  destruct e; try discriminate He; cbn [draws_current current_frame]; auto.
Qed.

Lemma finish_events_neutral o m e :
  In e (finish_events o m) -> frame_neutral e = true.
Proof.
  intros H. apply finish_events_print in H.
  destruct e; try reflexivity; discriminate H.
Qed.

Lemma callback_events_neutral cb e :
  In e (callback_events cb) -> frame_neutral e = true.
Proof. destruct cb; cbn; [intros [<-|[]]; reflexivity|intros []]. Qed.

Lemma run_call_draws_current c cur g :
  frame_known cur g ->
  draws_current cur (events (run_call c g))
  /\ forall g', result (run_call c g) = Return tt g' ->
                frame_known (current_frame cur (events (run_call c g))) g'.
Proof.
  intros HI. destruct c as [| |w' h'| |key|]; cbn [run_call].
  - rewrite session_init_run. unfold events, result. cbn [fst snd].
    unfold session_init_events. cbn [app draws_current current_frame].
    destruct (neutral_events_keep_frame (Some (frame_of (options g)))
                (callback_events (registered (options g)) ++ [ESessionStart]))
      as [Hd Hc].
    { intros e He. apply in_app_or in He. destruct He as [He|[<-|[]]];
        [now apply callback_events_neutral in He|reflexivity]. }
    split; [exact Hd|]. intros g' [= <-]. right. rewrite Hc.
    destruct (options g); reflexivity.
  - destruct (session_exit_run g) as [m' E]. rewrite E.
    unfold events, result. cbn [fst snd].
    split.
    + apply draws_current_app. split.
      * unfold delete_events.
        destruct (Options.session (options g)), (Options.scene (options g));
          cbn; auto.
      * apply neutral_events_keep_frame. apply finish_events_neutral.
    + intros g' [= <-]. left. reflexivity.
  - destruct g as [[se sc fp w h scp sp q sh] m].
    unfold resize, session_reset, session_buffer_params, session_call,
      deref_session.
    destruct se as [s|]; run_state.
    + cbn [draws_current current_frame]. split; [exact I|].
      intros g' [= <-]. right. reflexivity.
    + cbn [draws_current current_frame]. split; [exact I|].
      intros g' [= <-]. left. reflexivity.
  - destruct g as [[se sc fp w h scp sp q sh] m].
    unfold display, display_info, session_buffer_params, session_call,
      deref_session.
    destruct se as [s|]; run_state; [|split; [exact I|discriminate]].
    destruct HI as [HI|HI]; [discriminate HI|].
    destruct (Progress.get_status (Session.progress s)) as [st sub].
    run_state. destruct sh; run_state;
      cbn [app draws_current current_frame];
      (split; [split; [exact HI|exact I]|]);
      intros g' [= <-]; right; exact HI.
  - destruct g as [[se sc fp w h scp sp q sh] m].
    unfold keyboard, session_reset, session_buffer_params, session_call,
      deref_session.
    destruct (Ascii.eqb key "r");
      [|destruct (Ascii.eqb key "h"); [|destruct (Ascii.eqb key "027")]];
      destruct se as [s|]; run_state;
      cbn [app draws_current current_frame];
      (split; [exact I|]); try discriminate;
      intros g' [= <-];
      try (right; reflexivity); try (left; reflexivity);
      try exact HI.
    all: destruct HI as [HI|HI]; [discriminate HI|right; exact HI].
  - destruct g as [[se sc fp w h scp sp q sh] m].
    unfold session_wait, session_call, deref_session.
    destruct se as [s|]; run_state;
      cbn [app draws_current current_frame];
      (split; [exact I|]); try discriminate.
    intros g' [= <-]. destruct HI as [HI|HI]; [discriminate HI|right; exact HI].
Qed.

(** X23: starting without a session, in every sequence of calls of
    [session_init], [resize], [display], [keyboard], [wait] and
    [session_exit], each [draw] is given the buffer parameters of the latest
    [reset] of the session it draws. *)
Theorem display_draws_the_current_frame cs g :
  Options.session (options g) = None ->
  draws_current None (events (run_calls cs g)).
Proof.
  intros Hn.
  assert (HI : frame_known None g) by (now left).
  clear Hn. revert g HI. generalize (@None BufferParams.t).
  induction cs as [|c cs IH]; intros cur g HI; [exact I|].
  rewrite run_calls_cons.
  destruct (run_call_draws_current c cur g HI) as [Hd Hk].
  unfold bind. destruct (run_call c g) as [tr [[] g'| |]] eqn:E;
    unfold events in *; cbn [fst snd] in *; auto.
  unfold prepend. cbn [fst]. apply draws_current_app. split; [exact Hd|].
  apply IH. apply Hk. reflexivity.
Qed.

(** *** main in the interactive branch *)

Lemma display_without_session g :
  Options.session (options g) = None -> display g = ([], NullDeref).
Proof.
  destruct g as [[se sc fp w h scp sp q sh] m]. cbn [options Options.session].
  intros ->. unfold display, session_buffer_params, session_call, deref_session.
  run_state. reflexivity.
Qed.

(** X12: in a GUI build, when [options_parse] returns without the
    background flag, [main] itself only loads the scene and calls
    [view_main_loop], with the title made of the file name and with the
    dimensions of [options]; no session exists at that moment, and all that
    follows is the run of the functions the loop calls, after which [main]
    returns 0.  A loop whose first call is [display] therefore makes the
    process dereference the null session pointer. *)
Theorem interactive_main_hands_over cl g g1 :
  result (options_parse cl g) = Return tt g1 ->
  WITH_CYCLES_STANDALONE_GUI = true ->
  SessionParams.background (Options.session_params (options g1)) = false ->
  let o := options g1 in
  main cl g =
    prepend
      (EPathInit :: scene_init_events (configured cl (options g))
       ++ [EViewMainLoop (window_title o)
             (Options.width o) (Options.height o)])
      (bind (run_calls (loop_calls o)) (fun _ => ret 0) g1)
  /\ Options.session o = None
  /\ (forall rest,
        loop_calls o = call_display :: rest ->
        result (main cl g) = NullDeref).
Proof.
  intros Hret HG Hb o.
  assert (Hs : Options.session o = None).
  { unfold o. destruct (options_parse_final _ _ _ Hret) as [-> _].
    cbn [options]. now rewrite after_scene_init_session, session_configured. }
  assert (Hm : main cl g =
    prepend
      (EPathInit :: scene_init_events (configured cl (options g))
       ++ [EViewMainLoop (window_title o)
             (Options.width o) (Options.height o)])
      (bind (run_calls (loop_calls o)) (fun _ => ret 0) g1)).
  { rewrite (main_after_options_parse _ _ _ Hret), HG, Hb. cbn [negb orb].
    drive. reflexivity. }
  split; [exact Hm|]. split; [exact Hs|].
  intros rest Hc. rewrite Hm, Hc. cbn [run_calls run_call].
  unfold bind. rewrite (display_without_session g1 Hs). reflexivity.
Qed.







End More.

(** ** The further properties at work on a concrete installation *)

Lemma parse_error_is_fatal_witness :
  main (build := Demo.background_build) (dev := Demo.registry)
       (loader := Demo.loader) (view := Demo.window)
       Scenario.rejected Demo.globals0
  = ([EPathInit; EStderr ("Invalid option --bogus-flag" ++ LF);
      EUsage "Devices to use: cpu, cuda"], Exit EXIT_FAILURE).
Proof.
  apply (parse_error_is_fatal (build := Demo.background_build)
           (dev := Demo.registry) (loader := Demo.loader)
           Scenario.rejected Demo.globals0).
  reflexivity.
Defined.

Lemma help_prints_usage_witness :
  main (build := Demo.background_build) (dev := Demo.registry)
       (loader := Demo.loader) (view := Demo.window)
       Scenario.help Demo.globals0
  = ([EPathInit; EUsage "Devices to use: cpu, cuda"], Exit EXIT_SUCCESS).
Proof.
  apply (help_prints_usage (build := Demo.background_build)
           (dev := Demo.registry) (loader := Demo.loader)
           Scenario.help Demo.globals0).
  - vm_compute. discriminate.
  - reflexivity.
  - reflexivity.
Defined.

Lemma negative_samples_is_fatal_witness :
  main (build := Demo.background_build) (dev := Demo.registry)
       (loader := Demo.loader) (view := Demo.window)
       Demo.negative_samples Demo.globals0
  = ([EPathInit; EStderr ("Invalid number of samples: -1" ++ LF)],
     Exit EXIT_FAILURE).
Proof.
  apply (negative_samples_is_fatal (build := Demo.background_build)
           (dev := Demo.registry) (loader := Demo.loader)
           Demo.negative_samples Demo.globals0 (-1)).
  - vm_compute. discriminate.
  - reflexivity.
  - reflexivity.
  - vm_compute. discriminate.
  - vm_compute. discriminate.
  - exists Demo.cpu. split; [now left|reflexivity].
  - reflexivity.
  - reflexivity.
  - reflexivity.
Defined.

Lemma unknown_shading_system_is_fatal_witness :
  main (build := Demo.background_build) (dev := Demo.registry)
       (loader := Demo.loader) (view := Demo.window)
       Scenario.glsl Demo.globals0
  = ([EPathInit; EStderr ("Unknown shading system: glsl" ++ LF)],
     Exit EXIT_FAILURE).
Proof.
  apply (unknown_shading_system_is_fatal (build := Demo.background_build)
           (dev := Demo.registry) (loader := Demo.loader)
           Scenario.glsl Demo.globals0 "glsl").
  - reflexivity.
  - vm_compute. discriminate.
  - reflexivity.
  - reflexivity.
  - vm_compute. discriminate.
  - vm_compute. discriminate.
  - exists Demo.cpu. split; [now left|reflexivity].
  - reflexivity.
  - vm_compute. discriminate.
  - vm_compute. discriminate.
Defined.

Lemma options_parse_returns_valid_witness :
  Options.session (options Demo.loaded) = None
  /\ Options.filepath (options Demo.loaded) = "scene.xml"
  /\ 0 <= SessionParams.samples (Options.session_params (options Demo.loaded)).
Proof.
  destruct (options_parse_returns_valid (build := Demo.background_build)
              (dev := Demo.registry) (loader := Demo.loader)
              Demo.render Demo.globals0 Demo.loaded)
    as (Hs & Hf & _ & _ & Hn & _).
  - vm_compute. reflexivity.
  - split; [exact Hs|]. split; [exact Hf|exact Hn].
Defined.

Lemma options_parse_selects_first_device_witness :
  first_of_type DEVICE_CUDA [Demo.cpu; Demo.cuda; Scenario.cuda2]
    (SessionParams.device
       (Options.session_params
          (options (Scenario.parsed_by Demo.background_build
                      Scenario.two_cards Scenario.on_cuda))))
  /\ SessionParams.device
       (Options.session_params
          (options (Scenario.parsed_by Demo.background_build
                      Scenario.two_cards Scenario.on_cuda)))
     = Demo.cuda.
Proof.
  split; [|reflexivity].
  refine (proj2 (options_parse_selects_first_device
                   (build := Demo.background_build)
                   (dev := Scenario.two_cards) (loader := Demo.loader)
                   Scenario.on_cuda Demo.globals0 _ _)).
  vm_compute. reflexivity.
Defined.

Lemma interactive_session_is_progressive_witness :
  SessionParams.progressive
    (Options.session_params
       (options (Scenario.parsed_by Demo.gui_build Demo.registry Demo.render)))
  = true.
Proof.
  refine (proj2 (interactive_session_is_progressive
                   (build := Demo.gui_build) (dev := Demo.registry)
                   (loader := Demo.loader) Demo.render Demo.globals0 _ _) _).
  - vm_compute. reflexivity.
  - reflexivity.
Defined.

Lemma build_without_osl_uses_svm_witness :
  SceneParams.shadingsystem
    (Options.scene_params
       (options (Scenario.parsed_by Scenario.no_osl_build Demo.registry
                   Demo.render)))
  = SceneParams.SVM.
Proof.
  apply (build_without_osl_uses_svm (build := Scenario.no_osl_build)
           (dev := Demo.registry) (loader := Demo.loader)
           Demo.render Demo.globals0).
  - reflexivity.
  - vm_compute. reflexivity.
Defined.

Lemma explicit_dimensions_are_kept_witness :
  Options.width
    (options (Scenario.parsed_by Demo.background_build Demo.registry
                Scenario.sized)) = 800
  /\ Options.height
       (options (Scenario.parsed_by Demo.background_build Demo.registry
                   Scenario.sized)) = 600.
Proof.
  apply (explicit_dimensions_are_kept (build := Demo.background_build)
           (dev := Demo.registry) (loader := Demo.loader)
           Scenario.sized Demo.globals0).
  - reflexivity.
  - reflexivity.
  - discriminate.
  - discriminate.
  - vm_compute. reflexivity.
Defined.

Lemma one_missing_dimension_discards_both_witness :
  exists sc,
    Options.scene
      (options (Scenario.parsed_by Demo.background_build Demo.registry
                  Scenario.width_only)) = Some sc
    /\ Options.width
         (options (Scenario.parsed_by Demo.background_build Demo.registry
                     Scenario.width_only)) = Camera.width (Scene.camera sc)
    /\ Options.height
         (options (Scenario.parsed_by Demo.background_build Demo.registry
                     Scenario.width_only)) = Camera.height (Scene.camera sc).
Proof.
  apply (one_missing_dimension_discards_both (build := Demo.background_build)
           (dev := Demo.registry) (loader := Demo.loader)
           Scenario.width_only Demo.globals0).
  - right. reflexivity.
  - vm_compute. reflexivity.
Defined.

Lemma quiet_background_run_is_silent_witness :
  stdout_text
    (events (main (build := Demo.background_build) (dev := Demo.registry)
               (loader := Demo.loader) (view := Demo.window)
               Scenario.quiet Demo.globals0)) = "".
Proof.
  refine (proj1 (quiet_background_run_is_silent
                   (build := Demo.background_build) (dev := Demo.registry)
                   (loader := Demo.loader) Scenario.quiet Demo.globals0
                   (Scenario.parsed_by Demo.background_build Demo.registry
                      Scenario.quiet) eq_refl _ _)).
  - vm_compute. reflexivity.
  - left. reflexivity.
Defined.

Lemma interactive_main_hands_over_witness :
  Options.session
    (options (Scenario.parsed_by Demo.gui_build Demo.registry Demo.render))
  = None
  /\ result (main (build := Demo.gui_build) (dev := Demo.registry)
               (loader := Demo.loader) (view := Scenario.hasty)
               Demo.render Demo.globals0)
     = NullDeref.
Proof.
  assert (H1 : result (options_parse (build := Demo.gui_build)
                         (dev := Demo.registry) (loader := Demo.loader)
                         Demo.render Demo.globals0)
               = Return tt (Scenario.parsed_by Demo.gui_build Demo.registry
                              Demo.render))
    by (vm_compute; reflexivity).
  pose proof (interactive_main_hands_over
                (build := Demo.gui_build) (dev := Demo.registry)
                (loader := Demo.loader) (view := Scenario.hasty)
                Demo.render Demo.globals0 _ H1 eq_refl eq_refl) as H.
  cbv zeta in H. destruct H as (_ & Hs & Hd).
  split; [exact Hs|]. apply (Hd [call_initf]). reflexivity.
Defined.


Lemma session_print_width_witness :
  exists g',
    result (session_print "Finished Rendering." (mkGlobals Demo.options0 46))
    = Return tt g'
    /\ maxlen g' = 46
    /\ Z.of_nat
         (String.length
            (stdout_text
               (events (session_print "Finished Rendering."
                          (mkGlobals Demo.options0 46))))) = 47.
Proof.
  destruct (session_print_width "Finished Rendering."
              (mkGlobals Demo.options0 46) eq_refl)
    as (g' & Hr & _ & Hm & Hw).
  exists g'. split; [exact Hr|]. split; [exact Hm|].
  rewrite Hw, Hm. reflexivity.
Defined.

Lemma device_names_are_comma_separated_witness :
  join_device_names (dev := Demo.registry) [DEVICE_CPU; DEVICE_CUDA] ""
  = "cpu, cuda".
Proof.
  refine (device_names_are_comma_separated (dev := Demo.registry) _).
  intros t [<-|[<-|[]]]; discriminate.
Defined.

Lemma session_exit_before_session_init_witness :
  exists sc,
    Options.scene (options Demo.loaded) = Some sc
    /\ events (session_exit Demo.loaded)
       = ESceneDelete sc
         :: finish_events (options Demo.loaded) (maxlen Demo.loaded).
Proof.
  apply (session_exit_before_session_init (build := Demo.background_build)
           (dev := Demo.registry) (loader := Demo.loader)
           Demo.render Demo.globals0 Demo.loaded).
  vm_compute. reflexivity.
Defined.

Lemma resize_before_session_init_is_kept_witness :
  exists g1,
    resize 320 240 Demo.loaded = ([], Return tt g1)
    /\ In (ESessionReset (BufferParams.mk 320 240 320 240) 4)
          (events (session_init (build := Demo.gui_build) g1)).
Proof.
  destruct (resize_before_session_init_is_kept (build := Demo.gui_build)
              320 240 Demo.loaded eq_refl) as (g1 & Hr & _ & He).
  exists g1. split; [exact Hr|]. rewrite He. right. left. reflexivity.
Defined.

Lemma other_keys_are_ignored_witness :
  keyboard "x" Demo.loaded
  = ([], Return tt Demo.loaded).
Proof.
  apply (other_keys_are_ignored "x" Demo.loaded);
    discriminate.
Defined.

Lemma calls_without_session_witness :
  display Demo.loaded = ([], NullDeref)
  /\ exists g', resize 320 240 Demo.loaded
                = ([], Return tt g').
Proof.
  destruct (calls_without_session Demo.loaded eq_refl)
    as (Hd & _ & _ & _ & Hr & _).
  split; [exact Hd|apply Hr].
Defined.

Lemma display_draws_the_current_frame_witness :
  draws_current None
    (events (run_calls (build := Demo.gui_build) Scenario.redraws Demo.loaded))
  /\ In (ESessionDraw (BufferParams.mk 800 600 800 600))
        (events (run_calls (build := Demo.gui_build) Scenario.redraws
                   Demo.loaded)).
Proof.
  split.
  - exact (display_draws_the_current_frame (build := Demo.gui_build)
             Scenario.redraws Demo.loaded eq_refl).
  - vm_compute. intuition.
Defined.

(** ** The node with its default parameters *)

Lemma fexp_canonical m e :
  canonical_mantissa OSL.prec OSL.emax m e = true ->
  fexp OSL.prec OSL.emax (Zpos (digits2_pos m) + e) = e.
Proof. unfold canonical_mantissa. intros H. now apply Z.eqb_eq in H. Qed.

Lemma shr_fexp_exact m e :
  canonical_mantissa OSL.prec OSL.emax m e = true ->
  shr_fexp OSL.prec OSL.emax (Zpos m) e loc_Exact
  = (Build_shr_record (Zpos m) false false, e).
Proof.
  intros H. unfold shr_fexp. cbn [Zdigits2].
  rewrite (fexp_canonical _ _ H), Z.sub_diag. reflexivity.
Qed.

Lemma mul_one_finite s m e :
  bounded OSL.prec OSL.emax m e = true ->
  OSL.mul OSL.one (S754_finite s m e) = S754_finite s m e.
Proof.
  intros Hb. unfold bounded in Hb. apply andb_true_iff in Hb.
  destruct Hb as [Hc He].
  unfold OSL.mul, OSL.one, SFmul. cbn [xorb Pos.mul].
  unfold binary_round_aux.
  assert (E1 : shr_fexp OSL.prec OSL.emax
            (Zpos (m~0~0~0~0~0~0~0~0~0~0~0~0~0~0~0~0~0~0~0~0~0~0~0)) (-23 + e) loc_Exact
          = (Build_shr_record (Zpos m) false false, e)).
  { unfold shr_fexp. cbn [Zdigits2 digits2_pos].
    pose proof (fexp_canonical _ _ Hc) as Hf.
    match goal with
    | |- context [Zpos ?p + (-23 + e)] =>
        replace (Zpos p + (-23 + e)) with (Zpos (digits2_pos m) + e) by lia
    end.
    rewrite Hf.
    replace (e - (-23 + e)) with 23 by lia.
    unfold shr. f_equal. lia. }
  rewrite E1. cbn [shr_m loc_of_shr_record round_nearest_even].
  rewrite (shr_fexp_exact _ _ Hc). cbn [shr_m].
  now rewrite He.
Qed.

Lemma default_offset : OSL.sub OSL.zero (OSL.mul OSL.zero OSL.half) = OSL.zero.
Proof. reflexivity. Qed.

Lemma default_gain : OSL.add OSL.one OSL.zero = OSL.one.
Proof. reflexivity. Qed.

Lemma default_channel x :
  valid_binary OSL.prec OSL.emax x = true ->
  OSL.add (OSL.mul OSL.one x) OSL.zero
  = match x with
    | S754_zero true => OSL.zero
    | _ => x
    end.
Proof.
  destruct x as [[|]|[|]| |s m e]; try reflexivity.
  cbn [valid_binary]. intros Hb. rewrite (mul_one_finite _ _ _ Hb). reflexivity.
Qed.

(** X24: with the default parameters Bright = 0 and Contrast = 0, and a
    [max] that selects its first argument when that is above zero and zero
    otherwise, every channel that holds a binary32 value comes out unchanged
    if it is above zero and as zero otherwise (negative values, both zeros
    and NaN included): the multiplication by 1 + Contrast and the addition of
    the offset round nothing away. *)
Theorem default_parameters_clamp_at_zero max ColorIn i :
  (forall y, max y OSL.zero = if OSL.ltb OSL.zero y then y else OSL.zero) ->
  valid_binary OSL.prec OSL.emax (OSL.component ColorIn i) = true ->
  OSL.component (OSL.node_brightness max ColorIn OSL.zero OSL.zero) i
  = if OSL.ltb OSL.zero (OSL.component ColorIn i)
    then OSL.component ColorIn i
    else OSL.zero.
Proof.
  intros Hmax Hv.
  assert (E : OSL.component (OSL.node_brightness max ColorIn OSL.zero OSL.zero) i
              = max (OSL.add (OSL.mul OSL.one (OSL.component ColorIn i))
                             OSL.zero) OSL.zero).
  { unfold OSL.node_brightness. rewrite default_offset, default_gain.
    destruct i; reflexivity. }
  rewrite E, (default_channel _ Hv), Hmax.
  destruct (OSL.component ColorIn i) as [[|]|[|]| |s m e]; reflexivity.
Qed.

Lemma default_parameters_clamp_at_zero_witness :
  OSL.component (OSL.node_brightness OSL.select_max Scenario.tint OSL.zero OSL.zero) OSL.i0
  = S754_finite false 13421773 (-24).
Proof.
  exact (default_parameters_clamp_at_zero OSL.select_max Scenario.tint OSL.i0
           select_max_at_zero eq_refl).
Defined.

(** ** The edge loop of the triangle fill *)

Section FillProofs.
Import TriangleFill.
Local Open Scope nat_scope.
Context {coords : Coordinates} {hashops : SmallHashOps}.

Hypothesis lookup_init : forall k, smallhash_lookup smallhash_init k = None.
Hypothesis lookup_insert :
  forall h k p, smallhash_lookup (smallhash_insert h k p) k = Some p.
Hypothesis lookup_insert_other :
  forall h k k' p,
    k <> k' ->
    smallhash_lookup (smallhash_insert h k p) k' = smallhash_lookup h k'.

Lemma set_nth_last {A} (l : list A) x f :
  set_nth (l ++ [x]) (List.length l) f = l ++ [f x].
Proof. induction l as [|y l IH]; cbn; [reflexivity|now rewrite IH]. Qed.

Lemma vert_at_old (l : list ScanFillVert) es es' sv p :
  p < List.length l ->
  vert_at (mkScanFillContext (l ++ [sv]) es) p
  = vert_at (mkScanFillContext l es') p.
Proof.
  intros Hp. unfold vert_at. cbn. now rewrite nth_error_app1.
Qed.

Lemma vert_at_new (l : list ScanFillVert) es sv :
  vert_at (mkScanFillContext (l ++ [sv]) es) (List.length l)
  = tmp_p sv.
Proof.
  unfold vert_at. cbn.
  rewrite nth_error_app2, Nat.sub_diag by lia. reflexivity.
Qed.

Lemma vert_at_bound (ctx : ScanFillContext) p v :
  vert_at ctx p = Some v -> p < List.length (fillvertbase ctx).
Proof.
  unfold vert_at. intros H. apply nth_error_Some.
  destruct (nth_error _ p); [discriminate|discriminate H].
Qed.

Lemma vert_of_spec (st : State) v :
  consistent st ->
  let st' := fst (vert_of st v) in
  let p := snd (vert_of st v) in
  consistent st'
  /\ vert_at (sf_ctx st') p = Some v
  /\ (forall q w, vert_at (sf_ctx st) q = Some w ->
                  vert_at (sf_ctx st') q = Some w)
  /\ (forall q w, vert_at (sf_ctx st') q = Some w ->
                  w = v \/ vert_at (sf_ctx st) q = Some w)
  /\ filledgebase (sf_ctx st') = filledgebase (sf_ctx st)
  /\ edge_mark st' = edge_mark st.
Proof.
  intros [Hh Hv]. cbv zeta. unfold vert_of.
  destruct (smallhash_lookup (hash st) v) as [p|] eqn:L; cbn [fst snd].
  - repeat split; auto; try apply Hh; auto.
  - destruct st as [h [l es] marks]. cbn [hash sf_ctx edge_mark] in *.
    unfold scanfill_vert_add, set_tmp_p.
    cbn [fillvertbase filledgebase fst snd].
    rewrite set_nth_last. cbn [co].
    set (sv := mkScanFillVert (vert_co v) (Some v)).
    assert (Hold : forall q w,
               vert_at (mkScanFillContext l es) q = Some w ->
               vert_at (mkScanFillContext (l ++ [sv]) es) q = Some w).
    { intros q w H. pose proof (vert_at_bound _ _ _ H) as Hq.
      cbn in Hq. now rewrite (vert_at_old l es es sv q Hq). }
    assert (Hnew : forall q w,
               vert_at (mkScanFillContext (l ++ [sv]) es) q = Some w ->
               (q = List.length l /\ w = v)
               \/ vert_at (mkScanFillContext l es) q = Some w).
    { intros q w H. pose proof (vert_at_bound _ _ _ H) as Hq.
      cbn in Hq. rewrite length_app in Hq. cbn in Hq.
      destruct (Nat.eq_dec q (List.length l)) as [->|Hne].
      - left. rewrite vert_at_new in H. cbn in H. split; congruence.
      - right. rewrite (vert_at_old l es es sv q) in H by lia. exact H. }
    split; [split|].
    + intros w q. cbn [hash sf_ctx].
      destruct (Nat.eq_dec v w) as [<-|Hne].
      * rewrite lookup_insert. split.
        -- intros [= <-]. now rewrite vert_at_new.
        -- intros H. destruct (Hnew _ _ H) as [[-> _]|H']; [reflexivity|].
           apply Hh in H'. congruence.
      * rewrite lookup_insert_other by exact Hne. rewrite Hh. split.
        -- apply Hold.
        -- intros H. destruct (Hnew _ _ H) as [[_ E]|H']; [congruence|exact H'].
    + intros q sv' H. cbn [sf_ctx fillvertbase] in H.
      destruct (Nat.lt_ge_cases q (List.length l)) as [Hq|Hq].
      * rewrite nth_error_app1 in H by exact Hq. eapply Hv; eauto.
      * rewrite nth_error_app2 in H by exact Hq.
        destruct (q - List.length l) as [|k]; cbn in H.
        -- injection H as <-. exists v. split; reflexivity.
        -- destruct k; discriminate H.
    + cbn [sf_ctx filledgebase edge_mark].
      split; [now rewrite vert_at_new|].
      split; [exact Hold|].
      split; [|split; reflexivity].
      intros q w H. destruct (Hnew _ _ H) as [[_ ->]|H']; auto.
Qed.

Lemma endpoint_app edges e v :
  endpoint (edges ++ [e]) v <-> endpoint edges v \/ v = v1 e \/ v = v2 e.
Proof.
  unfold endpoint. split.
  - intros [x [Hin Hx]]. apply in_app_or in Hin.
    destruct Hin as [Hin|[<-|[]]]; [left; eauto|right; exact Hx].
  - intros [[x [Hin Hx]]|Hx].
    + exists x. split; [apply in_or_app; now left|exact Hx].
    + exists e. split; [apply in_or_app; right; now left|exact Hx].
Qed.

Lemma fill_edge_spec edges (st : State) e :
  filled edges st -> filled (edges ++ [e]) (fill_edge st e).
Proof.
  intros (Hc & Hm & Hj & Hv). unfold fill_edge.
  set (st0 := mkState (hash st) (sf_ctx st) (edge_mark st ++ [e])).
  assert (Hc0 : consistent st0) by exact Hc.
  pose proof (vert_of_spec st0 (v1 e) Hc0) as H1. cbv zeta in H1.
  destruct (vert_of st0 (v1 e)) as [st1 p1]. cbn [fst snd] in H1.
  destruct H1 as (Hc1 & Hp1 & Hold1 & Hnew1 & He1 & Hm1).
  pose proof (vert_of_spec st1 (v2 e) Hc1) as H2. cbv zeta in H2.
  destruct (vert_of st1 (v2 e)) as [st2 p2]. cbn [fst snd] in H2.
  destruct H2 as (Hc2 & Hp2 & Hold2 & Hnew2 & He2 & Hm2).
  unfold filled, scanfill_edge_add. cbn [hash sf_ctx edge_mark].
  split; [exact Hc2|].
  split; [rewrite Hm2, Hm1; subst st0; cbn; now rewrite Hm|].
  split.
  - cbn [filledgebase]. rewrite He2, He1. subst st0. cbn [sf_ctx].
    apply Forall2_app.
    + eapply Forall2_impl; [|exact Hj].
      intros x [a b] [Ha Hb]. split; cbn [fst snd] in *.
      * apply (Hold2 a), (Hold1 a). exact Ha.
      * apply (Hold2 b), (Hold1 b). exact Hb.
    + constructor; [|constructor]. split; cbn [fst snd].
      * apply (Hold2 p1). exact Hp1.
      * exact Hp2.
  - intros v. rewrite endpoint_app, <- Hv. split.
    + intros [p Hp]. destruct (Hnew2 _ _ Hp) as [-> | Hp']; [auto|].
      destruct (Hnew1 _ _ Hp') as [-> | Hp'']; [auto|]. left. eauto.
    + intros [[p Hp] | [-> | ->]].
      * exists p. apply Hold2, Hold1. exact Hp.
      * exists p1. apply Hold2. exact Hp1.
      * exists p2. exact Hp2.
Qed.

Lemma filled_init : filled [] (mkState smallhash_init scanfill_begin []).
Proof.
  unfold filled, consistent, vert_at. cbn.
  split; [split|].
  - intros v p. rewrite lookup_init. destruct p; cbn; split; discriminate.
  - intros p sv H. destruct p; discriminate H.
  - split; [reflexivity|]. split; [constructor|].
    intros v. split.
    + intros [p H]. destruct p; discriminate H.
    + intros [e [[] _]].
Qed.

Lemma fold_fill_edge done edges (st : State) :
  filled done st -> filled (done ++ edges) (fold_left fill_edge edges st).
Proof.
  revert done st; induction edges as [|e edges IH]; intros done st H.
  - now rewrite app_nil_r.
  - cbn [fold_left]. replace (done ++ e :: edges) with ((done ++ [e]) ++ edges)
      by now rewrite <- app_assoc.
    apply IH. now apply fill_edge_spec.
Qed.

Lemma fill_edges_filled edges : filled edges (fill_edges edges).
Proof. apply (fold_fill_edge [] edges). apply filled_init. Qed.

(** X25: for a hash that behaves as a map, after the loop over the input
    edges the scanfill vertices stand one to one for the mesh vertices that
    are an end of some input edge: every such vertex has a scanfill vertex,
    no mesh vertex has two, and every scanfill vertex carries the pointer and
    the coordinates of an end of an input edge. *)
Theorem one_scanfill_vertex_per_endpoint edges :
  let ctx := sf_ctx (fill_edges edges) in
  (forall v, endpoint edges v <-> exists p, vert_at ctx p = Some v)
  /\ (forall p q v,
        vert_at ctx p = Some v -> vert_at ctx q = Some v -> p = q)
  /\ (forall p sv,
        nth_error (fillvertbase ctx) p = Some sv ->
        exists v, tmp_p sv = Some v /\ co sv = vert_co v /\ endpoint edges v).
Proof.
  cbv zeta. destruct (fill_edges_filled edges) as ([Hh Hsv] & _ & _ & Hv).
  split; [intros v; symmetry; apply Hv|]. split.
  - intros p q v Hp Hq. apply Hh in Hp, Hq. congruence.
  - intros p sv H. destruct (Hsv _ _ H) as [v [Ht Hco]].
    exists v. repeat split; auto. apply Hv. exists p.
    unfold vert_at. now rewrite H.
Qed.

(** X26: for a hash that behaves as a map, the loop adds one scanfill edge
    per input edge, in the order of the input, each joining the scanfill
    vertices that stand for the two ends of its mesh edge, and flags every
    input edge with EDGE_MARK. *)
Theorem one_scanfill_edge_per_edge edges :
  let st := fill_edges edges in
  Forall2 (joins (sf_ctx st)) edges (filledgebase (sf_ctx st))
  /\ List.length (filledgebase (sf_ctx st)) = List.length edges
  /\ edge_mark st = edges.
Proof.
  cbv zeta. destruct (fill_edges_filled edges) as (_ & Hm & Hj & _).
  split; [exact Hj|]. split; [|exact Hm].
  symmetry. eapply Forall2_length; eauto.
Qed.
End FillProofs.


Section FillExamples.
Import TriangleFill.
Local Open Scope nat_scope.

Lemma alist_lookup_insert_other (h : alist) k k' p :
  k <> k' -> alist_lookup ((k, p) :: h) k' = alist_lookup h k'.
Proof.
  intros Hne. cbn. destruct (Nat.eqb_spec k' k); [congruence|reflexivity].
Qed.

Lemma alist_lookup_insert (h : alist) k p : alist_lookup ((k, p) :: h) k = Some p.
Proof. cbn. now rewrite Nat.eqb_refl. Qed.

Lemma one_scanfill_vertex_per_endpoint_witness :
  let ctx := sf_ctx (fill_edges (coords := on_a_line) (hashops := alist_hash) kite) in
  List.length (fillvertbase ctx) = 4
  /\ (forall v, endpoint kite v <-> exists p, vert_at ctx p = Some v).
Proof.
  cbv zeta. split; [reflexivity|].
  exact (proj1 (one_scanfill_vertex_per_endpoint
                  (coords := on_a_line) (hashops := alist_hash)
                  (fun _ => eq_refl) alist_lookup_insert
                  alist_lookup_insert_other kite)).
Defined.

Lemma one_scanfill_edge_per_edge_witness :
  filledgebase
    (sf_ctx (fill_edges (coords := on_a_line) (hashops := alist_hash) kite))
  = [(0, 1); (1, 2); (2, 0); (2, 3)]
  /\ List.length
       (filledgebase
          (sf_ctx
             (fill_edges (coords := on_a_line) (hashops := alist_hash) kite)))
     = List.length kite.
Proof.
  split; [reflexivity|].
  exact (proj1 (proj2 (one_scanfill_edge_per_edge
                  (coords := on_a_line) (hashops := alist_hash)
                  (fun _ => eq_refl) alist_lookup_insert
                  alist_lookup_insert_other kite))).
Defined.
End FillExamples.
